(** * Geo-Data Loader: a shallow embedding of [geo_data_fetch.py]

    The loader fetches the country list of restcountries.com, reshapes it
    into a mapping keyed by common name and writes it out as JSON.  This
    file embeds the Python functions [build_cca3_map], [process_data],
    [fetch_data], [save_json] and [main] and proves the properties of the
    specification about them.

    The data the program handles is whatever [json.loads] returns, so the
    embedding works on Python values ([value]), Python dictionaries
    (insertion ordered, keyed by hashable values) and Python exceptions
    (the [exc] monad). *)

From Stdlib Require Import ZArith String List Bool.
From Stdlib Require Import SpecFloat.
From stdpp Require Import base option list strings gmap.

Local Open Scope Z_scope.

(** ** Python values *)

Module Py.

(** The values [json.loads] produces: [None], [bool], [int], [float],
    [str], [list] and [dict].  A [str] is its sequence of characters; a
    [float] is an IEEE value ([spec_float] has signed zeros, infinities
    and NaN, which Python's decoder accepts).  A [dict] is kept as its
    items in insertion order. *)
#[warnings="-register-all"]
Inductive value : Type :=
| VNone
| VBool (b : bool)
| VInt (z : Z)
| VFloat (f : spec_float)
| VStr (s : string)
| VList (l : list value)
| VDict (items : list (value * value)).

Definition pydict : Type := list (value * value).

(** Exceptions the program can meet. *)
Inductive exn : Type :=
| AttributeError      (* [x.get] on a value that is not a dict *)
| TypeError           (* unhashable key, or iterating a non-iterable *)
| TransportError      (* httpx: connection failure or timeout *)
| HTTPStatusError     (* httpx: [raise_for_status] *)
| JSONDecodeError     (* [resp.json()] on a body that is not JSON *)
| FileNotFoundError
| FileExistsError
| NotADirectoryError
| IsADirectoryError
| EncodeError.        (* raised inside [json.dump] *)

Inductive exc (A : Type) : Type :=
| Ok (a : A)
| Raise (e : exn).
Arguments Ok {A} a.
Arguments Raise {A} e.

#[global] Instance exc_ret : MRet exc := fun A a => Ok a.
#[global] Instance exc_bind : MBind exc := fun A B f m =>
  match m with
  | Ok a => f a
  | Raise e => Raise e
  end.

Definition is_ok {A} (m : exc A) : bool :=
  match m with Ok _ => true | Raise _ => false end.

(** [bool(v)]: Python truthiness. *)
Definition truthy (v : value) : bool :=
  match v with
  | VNone => false
  | VBool b => b
  | VInt z => negb (z =? 0)
  | VFloat (S754_zero _) => false
  | VFloat _ => true
  | VStr s => negb (String.eqb s EmptyString)
  | VList l => match l with [] => false | _ => true end
  | VDict d => match d with [] => false | _ => true end
  end.

(** *** Hashing and key equality

    A dict finds a key by hash and [==].  On the hashable values of JSON
    that is: strings by content; [None] only itself; [bool], [int] and
    [float] by numeric value across the three types ([True == 1 == 1.0]).
    [hkey] is the normal form of a hashable value under that equality, so
    that two values are the same key exactly when their [hkey]s are
    equal.  Every NaN the decoder returns is the one module constant, so a
    NaN key is found again by identity. *)
Inductive hkey : Type :=
| KNone
| KStr (s : string)
| KInt (z : Z)
| KFrac (neg : bool) (m : positive) (e : Z)   (* odd m, e < 0: m * 2^e *)
| KInf (neg : bool)
| KNan.

#[global] Instance hkey_eq_dec : EqDecision hkey.
Proof. solve_decision. Defined.

(** [m * 2^e] with the trailing zero bits of [m] moved into the exponent. *)
Fixpoint odd_part (m : positive) (e : Z) : positive * Z :=
  match m with
  | xO m' => odd_part m' (e + 1)
  | _ => (m, e)
  end.

Definition float_key (f : spec_float) : hkey :=
  match f with
  | S754_zero _ => KInt 0
  | S754_infinity s => KInf s
  | S754_nan => KNan
  | S754_finite s m e =>
      let '(m', e') := odd_part m e in
      if 0 <=? e'
      then KInt ((if s then -1 else 1) * (Z.pos m' * 2 ^ e'))
      else KFrac s m' e'
  end.

(** [hash(v)]: [None] for the unhashable [list] and [dict]. *)
Definition hash_key (v : value) : option hkey :=
  match v with
  | VNone => Some KNone
  | VBool b => Some (KInt (if b then 1 else 0))
  | VInt z => Some (KInt z)
  | VFloat f => Some (float_key f)
  | VStr s => Some (KStr s)
  | VList _ | VDict _ => None
  end.

Definition hashable (v : value) : bool :=
  match hash_key v with Some _ => true | None => false end.

(** *** Dictionaries *)

(** The value stored under key [k]. *)
Fixpoint dict_lookup (k : hkey) (d : pydict) : option value :=
  match d with
  | [] => None
  | (key, v) :: d' =>
      if decide (hash_key key = Some k) then Some v else dict_lookup k d'
  end.

(** Store [v] under [key] (whose hash is [k]): an existing key keeps its
    position and its key object and gets the new value, a new key goes to
    the end. *)
Fixpoint dict_store (key : value) (k : hkey) (v : value) (d : pydict) : pydict :=
  match d with
  | [] => [(key, v)]
  | (key', v') :: d' =>
      if decide (hash_key key' = Some k)
      then (key', v) :: d'
      else (key', v') :: dict_store key k v d'
  end.

(** The keys of a dict, as the dict tells them apart. *)
Definition dict_keys (d : pydict) : list (option hkey) := map (fun kv => hash_key (fst kv)) d.

(** [obj.get(key, dflt)]: only a dict has the method, and the key is
    hashed before it is looked up. *)
Definition py_get (obj key dflt : value) : exc value :=
  match obj with
  | VDict d =>
      match hash_key key with
      | Some k => Ok (default dflt (dict_lookup k d))
      | None => Raise TypeError
      end
  | _ => Raise AttributeError
  end.

(** [d[key] = v]. *)
Definition dict_setitem (d : pydict) (key v : value) : exc pydict :=
  match hash_key key with
  | Some k => Ok (dict_store key k v d)
  | None => Raise TypeError
  end.

Definition isinstance_dict (v : value) : bool :=
  match v with VDict _ => true | _ => false end.

(** The characters of a [str], each a [str] of length one. *)
Fixpoint chars (s : string) : list value :=
  match s with
  | EmptyString => []
  | String a s' => VStr (String a EmptyString) :: chars s'
  end.

(** [for x in v]: the elements of a list, the characters of a string, the
    keys of a dict; the other values are not iterable. *)
Definition py_iter (v : value) : exc (list value) :=
  match v with
  | VList l => Ok l
  | VStr s => Ok (chars s)
  | VDict d => Ok (map fst d)
  | _ => Raise TypeError
  end.

(** [x and y]: [y] is evaluated only when [x] is truthy. *)
Definition py_and (x y : exc value) : exc value :=
  a ← x; if truthy a then y else mret a.

(** A loop over a sequence whose body may raise. *)
Fixpoint foldM {A B : Type} (body : B -> A -> exc B) (acc : B) (l : list A) : exc B :=
  match l with
  | [] => Ok acc
  | a :: l' => acc' ← body acc a; foldM body acc' l'
  end.

(** [{key(c): val(c) for c in cs if cond(c)}]: per element the condition,
    then the key, then the value, then the store. *)
Definition dict_comprehension_step (key val : value -> exc value)
    (cond : value -> exc value) (acc : pydict) (c : value) : exc pydict :=
  t ← cond c;
  if truthy t
  then k ← key c; v ← val c; dict_setitem acc k v
  else mret acc.

Definition dict_comprehension (key val cond : value -> exc value)
    (cs : list value) : exc pydict :=
  foldM (dict_comprehension_step key val cond) [] cs.

(** [[elt(b) for b in bs if cond(b)]]. *)
Definition list_comprehension_step (elt cond : value -> exc value)
    (acc : list value) (b : value) : exc (list value) :=
  t ← cond b;
  if truthy t
  then v ← elt b; mret (acc ++ [v])
  else mret acc.

Definition list_comprehension (elt cond : value -> exc value)
    (bs : list value) : exc (list value) :=
  foldM (list_comprehension_step elt cond) [] bs.

End Py.

Import Py.

(** ** The transform stage *)

Definition str (s : string) : value := VStr s.

(** [build_cca3_map(countries)], lines 40-46. *)
Definition build_cca3_map (countries : value) : exc pydict :=
  cs ← py_iter countries;
  dict_comprehension
    (fun c => py_get c (str "cca3") VNone)
    (fun c => py_get c (str "cca2") VNone)
    (fun c => py_and (py_get c (str "cca3") VNone) (py_get c (str "cca2") VNone))
    cs.

(** The body of the [for c in countries] loop of [process_data], lines
    56-73; [continue] leaves [formatted] as it is. *)
Definition process_record (cca3_to_cca2 : pydict) (formatted : pydict)
    (c : value) : exc pydict :=
  name_obj ← py_get c (str "name") (VDict []);
  name ← (if isinstance_dict name_obj
          then py_get name_obj (str "common") VNone
          else mret VNone);
  cca2 ← py_get c (str "cca2") VNone;
  region ← py_get c (str "region") (str "Unknown");
  borders_cca3 ← py_get c (str "borders") (VList []);
  if negb (truthy name) || negb (truthy cca2)
  then mret formatted
  else
    bs ← py_iter borders_cca3;
    borders_cca2 ←
      list_comprehension
        (fun b => py_get (VDict cca3_to_cca2) b VNone)
        (fun b => py_get (VDict cca3_to_cca2) b VNone)
        bs;
    dict_setitem formatted name
      (VDict [(str "cca2", cca2);
              (str "region", region);
              (str "borders", VList borders_cca2)]).

(** ** The world: log, file system and remote API *)

(** A path is the list of its components, innermost first, so that the
    parent of a path is its tail and the root is the empty list. *)
Definition path : Type := list string.

Definition child (p : path) (name : string) : path := name :: p.
Infix "//" := child (at level 40, left associativity).

Definition parent (p : path) : path := tail p.

Inductive node : Type :=
| Dir
| File (content : string).

(** What one [GET] of a URL comes back with: no response at all, or a
    status code and a body ([None] when the body is not JSON). *)
Inductive http_outcome : Type :=
| NoResponse
| Response (status_code : Z) (body : option value).

(** The records the program hands to [LOG.info]. *)
Inductive log_record : Type :=
| LogFetching                (* "Fetching country data..." *)
| LogFetched                 (* "Data fetched successfully." *)
| LogProcessing              (* "Processing data..." *)
| LogProcessed (n : nat)     (* f"Processed {n} countries." *)
| LogSaving (p : path)       (* f"Saving data to {p}..." *)
| LogSaved.                  (* "Data saved successfully." *)

Record world : Type := World {
  logged : list log_record;
  files : gmap path node;
  remote : string -> http_outcome
}.

(** Computations that read and change the world and may raise; what was
    done before an exception stays done. *)
Definition M (A : Type) : Type := world -> exc A * world.

#[global] Instance M_ret : MRet M := fun A a w => (Ok a, w).
#[global] Instance M_bind : MBind M := fun A B f m w =>
  match m w with
  | (Ok a, w') => f a w'
  | (Raise e, w') => (Raise e, w')
  end.

Definition lift {A : Type} (m : exc A) : M A := fun w => (m, w).

Definition LOG_info (r : log_record) : M unit := fun w =>
  (Ok tt, World (logged w ++ [r]) (files w) (remote w)).

Definition get_files : M (gmap path node) := fun w => (Ok (files w), w).

Definition put_files (fs : gmap path node) : M unit := fun w =>
  (Ok tt, World (logged w) fs (remote w)).

(** [process_data(countries)], lines 48-76. *)
Definition process_data (countries : value) : M pydict :=
  LOG_info LogProcessing;;
  cca3_to_cca2 ← lift (build_cca3_map countries);
  formatted ← lift (cs ← py_iter countries;
                    foldM (process_record cca3_to_cca2) [] cs);
  LOG_info (LogProcessed (length formatted));;
  mret formatted.

(** ** The fetch stage *)

Definition API_URL : string :=
  "https://restcountries.com/v3.1/all?fields=name,cca2,cca3,region,borders".

(** [client.get(url)]. *)
Definition client_get (url : string) : M (Z * option value) := fun w =>
  match remote w url with
  | NoResponse => (Raise TransportError, w)
  | Response status body => (Ok (status, body), w)
  end.

(** httpx: a response is a success when its status is 2xx, and
    [raise_for_status] raises [HTTPStatusError] for every other one. *)
Definition is_success (status : Z) : bool :=
  (200 <=? status) && (status <=? 299).

Definition raise_for_status (resp : Z * option value) : M unit :=
  if is_success (fst resp) then mret tt else lift (Raise HTTPStatusError).

(** [resp.json()]. *)
Definition resp_json (resp : Z * option value) : M value :=
  match snd resp with
  | Some v => mret v
  | None => lift (Raise JSONDecodeError)
  end.

(** [fetch_data()], lines 31-38. *)
Definition fetch_data : M value :=
  LOG_info LogFetching;;
  resp ← client_get API_URL;
  raise_for_status resp;;
  LOG_info LogFetched;;
  resp_json resp.

(** ** The persist stage *)

Definition is_dir (p : path) (fs : gmap path node) : bool :=
  match p with
  | [] => true
  | _ => match fs !! p with Some Dir => true | _ => false end
  end.

(** [os.mkdir(p)]: the parent must be a directory and [p] must be new. *)
Definition os_mkdir (p : path) (fs : gmap path node) : exc (gmap path node) :=
  match p with
  | [] => Raise FileExistsError
  | _ :: par =>
      if is_dir par fs
      then match fs !! p with
           | Some _ => Raise FileExistsError
           | None => Ok (<[p := Dir]> fs)
           end
      else match fs !! par with
           | Some _ => Raise NotADirectoryError
           | None => Raise FileNotFoundError
           end
  end.

(** [Path.mkdir(parents=False, exist_ok=True)]. *)
Definition mkdir_exist_ok (p : path) (fs : gmap path node) : exc (gmap path node) :=
  match os_mkdir p fs with
  | Ok fs' => Ok fs'
  | Raise FileNotFoundError => Raise FileNotFoundError
  | Raise e => if is_dir p fs then Ok fs else Raise e
  end.

(** [Path.mkdir(parents=True, exist_ok=True)]: try the directory itself,
    and only when its parent is missing make the parent first. *)
Fixpoint mkdir_parents (p : path) (fs : gmap path node) : exc (gmap path node) :=
  match os_mkdir p fs with
  | Ok fs' => Ok fs'
  | Raise FileNotFoundError =>
      match p with
      | [] => Raise FileNotFoundError
      | _ :: par => fs' ← mkdir_parents par fs; mkdir_exist_ok p fs'
      end
  | Raise e => if is_dir p fs then Ok fs else Raise e
  end.

(** [open(p, "w")]: creates the file or empties it. *)
Definition open_w (p : path) (fs : gmap path node) : exc (gmap path node) :=
  if is_dir p fs then Raise IsADirectoryError
  else if is_dir (parent p) fs then Ok (<[p := File ""]> fs)
  else match fs !! parent p with
       | Some _ => Raise NotADirectoryError
       | None => Raise FileNotFoundError
       end.

Section Pipeline.

(** [json.dump(data, f, ensure_ascii=False, indent=2)] belongs to Python's
    library: [json_dump data] is the text it writes to [f], and the
    exception that cut the writing short if there was one. *)
Variable json_dump : value -> string * option exn.

(** [save_json(path, data)], lines 78-85. *)
Definition save_json (p : path) (data : pydict) : M unit :=
  LOG_info (LogSaving p);;
  fs ← get_files;
  fs ← lift (mkdir_parents (parent p) fs);
  put_files fs;;
  fs ← lift (open_w p fs);
  put_files fs;;
  put_files (<[p := File (fst (json_dump (VDict data)))]> fs);;
  match snd (json_dump (VDict data)) with
  | Some e => lift (Raise e)
  | None => LOG_info LogSaved
  end.

(** [OUTPUT_FILE = Path(__file__).parent / "app" / "geodata.json"], with
    [here] the directory of the script. *)
Definition OUTPUT_FILE (here : path) : path := here // "app" // "geodata.json".

(** [main()], lines 87-90. *)
Definition main (here : path) : M unit :=
  countries ← fetch_data;
  processed ← process_data countries;
  save_json (OUTPUT_FILE here) processed.

End Pipeline.

(** ** Vocabulary of the specification

    The specification speaks of the fields of a record being present or
    absent, of the record being emitted, and of the entry built from it.
    These definitions give the words a meaning on [value]s; the theorems
    relate them to what the code computes. *)

(** The value under a key of an object, when the key is present. *)
Definition field (c : value) (name : string) : option value :=
  match c with
  | VDict d => dict_lookup (KStr name) d
  | _ => None
  end.

(** [name.common]: [None] unless [name] is an object that has it. *)
Definition common_name (c : value) : value :=
  match field c "name" with
  | Some (VDict n) => default VNone (dict_lookup (KStr "common") n)
  | Some _ => VNone
  | None => VNone
  end.

Definition cca2_of (c : value) : value := default VNone (field c "cca2").

Definition region_of (c : value) : value := default (str "Unknown") (field c "region").

Definition borders_of (c : value) : value := default (VList []) (field c "borders").

(** A record is emitted when it has a name and a two-letter code. *)
Definition emitted (c : value) : bool :=
  truthy (common_name c) && truthy (cca2_of c).

(** A record is incomplete when its name field is missing, or is not an
    object, or lacks [common], or when its [cca2] is absent. *)
Definition incomplete (c : value) : Prop :=
  field c "name" = None
  \/ (exists v, field c "name" = Some v /\ isinstance_dict v = false)
  \/ (exists n, field c "name" = Some (VDict n) /\ dict_lookup (KStr "common") n = None)
  \/ field c "cca2" = None.

(** What a border code resolves to: its value in the table when that is
    not empty. *)
Definition resolve (tbl : pydict) (b : value) : option value :=
  v ← (hash_key b ≫= fun k => dict_lookup k tbl);
  if truthy v then Some v else None.

(** [tbl.get(b)] for a border [b] that can be hashed. *)
Definition table_get (tbl : pydict) (b : value) : value :=
  default VNone (hash_key b ≫= fun k => dict_lookup k tbl).

(** The codes of a sequence that resolve, translated, in their order. *)
Definition translate (tbl : pydict) (bs : list value) : list value :=
  omap (resolve tbl) bs.

(** The sequence a [for] loop sees in a value. *)
Definition elements (v : value) : list value :=
  match py_iter v with Ok l => l | Raise _ => [] end.

(** The output entry built from a record. *)
Definition entry_of (tbl : pydict) (c : value) : value :=
  VDict [(str "cca2", cca2_of c);
         (str "region", region_of c);
         (str "borders", VList (translate tbl (elements (borders_of c))))].

(** The last record of a sequence that is emitted under the key [k]. *)
Fixpoint last_named (k : hkey) (cs : list value) : option value :=
  match cs with
  | [] => None
  | c :: cs' =>
      match last_named k cs' with
      | Some c' => Some c'
      | None =>
          if emitted c && bool_decide (hash_key (common_name c) = Some k)
          then Some c else None
      end
  end.

(** The code table in the words of the specification: scan the records
    in order and insert [(cca3, cca2)] for each record where both are
    present and [wanted]; a later insertion under the same key replaces
    the value.  The specification words [wanted] in two ways. *)
Definition insert_code (tbl : pydict) (cca3 cca2 : value) : pydict :=
  match hash_key cca3 with
  | Some k => dict_store cca3 k cca2 tbl
  | None => tbl
  end.

Definition spec_code_table (wanted : value -> value -> bool) (cs : list value) : pydict :=
  fold_left
    (fun tbl c =>
       match field c "cca3", field c "cca2" with
       | Some a, Some b => if wanted a b then insert_code tbl a b else tbl
       | _, _ => tbl
       end)
    cs [].

Definition both_present (cca3 cca2 : value) : bool := true.

Definition both_nonempty (cca3 cca2 : value) : bool := truthy cca3 && truthy cca2.

(** The two codes of a record that has both, non-empty. *)
Definition record_codes (c : value) : option (value * value) :=
  match field c "cca3", field c "cca2" with
  | Some a, Some b => if both_nonempty a b then Some (a, b) else None
  | _, _ => None
  end.

(** The [cca2] of the last record of a sequence whose [cca3] is the key
    [k]. *)
Fixpoint last_code (k : hkey) (cs : list value) : option value :=
  match cs with
  | [] => None
  | c :: cs' =>
      match last_code k cs' with
      | Some v => Some v
      | None =>
          match record_codes c with
          | Some (a, b) => if bool_decide (hash_key a = Some k) then Some b else None
          | None => None
          end
      end
  end.

(** The records the two functions can digest: objects whose codes and
    names, where they are used as keys, are not arrays or objects, and
    whose borders, where the record is emitted, can be iterated and
    hashed. *)
Definition table_record_ok (c : value) : bool :=
  isinstance_dict c &&
  match record_codes c with
  | Some (a, _) => hashable a
  | None => true
  end.

Definition output_record_ok (c : value) : bool :=
  isinstance_dict c &&
  (if emitted c
   then match py_iter (borders_of c) with
        | Ok bs => forallb hashable bs
        | Raise _ => false
        end && hashable (common_name c)
   else true).

(** A record as the data model has it: an object whose fields, where
    they are present, are of their types: [name] an object with a string
    [common], the two codes and the region strings, [borders] an array
    of strings. *)
Definition is_str (v : value) : bool :=
  match v with VStr _ => true | _ => false end.

Definition field_is (c : value) (name : string) (P : value -> bool) : bool :=
  match field c name with
  | Some v => P v
  | None => true
  end.

Definition raw_country (c : value) : bool :=
  isinstance_dict c &&
  field_is c "name" (fun n => isinstance_dict n && field_is n "common" is_str) &&
  field_is c "cca2" is_str &&
  field_is c "cca3" is_str &&
  field_is c "region" is_str &&
  field_is c "borders" (fun b => match b with
                                 | VList l => forallb is_str l
                                 | _ => false
                                 end).

(** ** Sample data

    The records of the scenarios of the specification, for the examples
    below. *)

(** An object, from its members. *)
Definition obj (members : list (string * value)) : value :=
  VDict (map (fun kv => (str (fst kv), snd kv)) members).

Definition country (name cca2 cca3 region : string) (borders : list string) : value :=
  obj [("name", obj [("common", str name)]);
       ("cca2", str cca2);
       ("cca3", str cca3);
       ("region", str region);
       ("borders", VList (map str borders))].

Definition syria : value :=
  country "Syria" "SY" "SYR" "Asia" ["IRQ"; "ISR"; "JOR"; "LBN"; "TUR"].
Definition iraq : value := country "Iraq" "IQ" "IRQ" "Asia" ["SYR"; "TUR"; "JOR"].
Definition israel : value := country "Israel" "IL" "ISR" "Asia" ["SYR"; "JOR"; "LBN"].
Definition jordan : value := country "Jordan" "JO" "JOR" "Asia" ["SYR"; "IRQ"; "ISR"].
Definition lebanon : value := country "Lebanon" "LB" "LBN" "Asia" ["SYR"; "ISR"].
Definition turkey : value := country "Turkey" "TR" "TUR" "Asia" ["SYR"; "IRQ"].

(** A record with codes and no name, one with a [cca3] and no [cca2],
    one whose [cca2] is present and empty, and an island that has
    neither region nor borders. *)
Definition nameless : list (value * value) :=
  [(str "cca2", str "XK"); (str "cca3", str "UNK")].
Definition codeless : value :=
  obj [("name", obj [("common", str "Atlantis")]); ("cca3", str "ATL")].
Definition empty_code : value :=
  obj [("cca3", str "ABC"); ("cca2", str "")].
Definition island : value :=
  obj [("name", obj [("common", str "Iceland")]); ("cca2", str "IS"); ("cca3", str "ISL")].

(** A second record under the name of [syria]. *)
Definition syria_again : value :=
  obj [("name", obj [("common", str "Syria")]); ("cca2", str "SX");
       ("region", VNone); ("borders", VList [str "IRQ"])].

(** Two records under one name, and a neighbour of the first. *)
Definition sudan : value :=
  obj [("name", obj [("common", str "Sudan")]); ("cca2", str "SD"); ("cca3", str "SDN")].
Definition sudan_again : value :=
  obj [("name", obj [("common", str "Sudan")]); ("cca2", str "SS"); ("cca3", str "SSD")].
Definition egypt : value :=
  obj [("name", obj [("common", str "Egypt")]); ("cca2", str "EG"); ("cca3", str "EGY");
       ("borders", VList [str "SDN"])].

(** A world in which nothing was logged, no file exists and the API
    answers every request with [outcome]. *)
Definition quiet_world (outcome : http_outcome) : world :=
  World [] ∅ (fun _ => outcome).

(** An encoder for the examples: it writes the empty object whatever the
    data and never raises. *)
Definition blank_dump (data : value) : string * option exn := ("{}", None).

(** Two worlds in which the API gives the same answer: a fresh one, and
    one that has a log and an output file from an earlier run. *)
Definition fresh_world : world :=
  World [] ∅ (fun _ => Response 200 (Some (VList [syria; iraq; codeless]))).

Definition used_world : world :=
  World [LogSaved]
        {[ ["srv"] := Dir;
           ["srv"] // "app" := Dir;
           OUTPUT_FILE ["srv"] := File "stale" ]}
        (fun _ => Response 200 (Some (VList [syria; iraq; codeless]))).

(** ** Order of the output, shape of the file system *)

(** The keys under which the records of a sequence are emitted, in the
    order of the records. *)
Definition emitted_names (cs : list value) : list (option hkey) :=
  map (fun c => hash_key (common_name c)) (List.filter emitted cs).

(** A sequence without its repetitions: of each element the first
    occurrence. *)
Fixpoint first_occurrences (l : list (option hkey)) : list (option hkey) :=
  match l with
  | [] => []
  | x :: l' => x :: filter (fun y => y <> x) (first_occurrences l')
  end.

(** A file system is a tree when the root is no entry of it and whatever
    exists sits in a directory. *)
Definition tree_shaped (fs : gmap path node) : Prop :=
  fs !! ([] : path) = None /\
  forall (p : path) n, fs !! p = Some n -> is_dir (parent p) fs = true.

(** [fs'] is [fs] with nothing but directories added, each of them [p]
    or above [p]. *)
Definition only_dirs_added (p : path) (fs fs' : gmap path node) : Prop :=
  forall q : path, fs' !! q = fs !! q \/
            (fs !! q = None /\ fs' !! q = Some Dir /\ q `suffix_of` p).

(** No file stands where [p] or a directory above it should be.  The
    paths above [p] are its suffixes, a path being kept innermost
    component first. *)
Definition no_file_on (p : path) (fs : gmap path node) : Prop :=
  forall (q : path) t, q `suffix_of` p -> fs !! q <> Some (File t).

(** An encoder for the examples that raises after it wrote a part. *)
Definition failing_dump (data : value) : string * option exn := ("{", Some EncodeError).

(** A file system with a script directory, and one with a stale output
    file beside another file. *)
Definition script_dir_only : gmap path node := {[ ["srv"] := Dir ]}.

Definition stale_output : gmap path node :=
  {[ ["srv"] := Dir;
     ["srv"] // "app" := Dir;
     ["srv"] // "app" // "notes.txt" := File "keep";
     OUTPUT_FILE ["srv"] := File "stale" ]}.

(** ** Facts about the Python runtime model *)

Module PyFacts.

Lemma bind_ok {A B : Type} (m : exc A) (f : A -> exc B) (b : B) :
  m ≫= f = Ok b <-> exists a, m = Ok a /\ f a = Ok b.
Proof.
  destruct m as [a|e]; cbn.
  - split; [eauto | intros (a' & [= <-] & H); exact H].
  - split; [discriminate | intros (a' & [=] & _)].
Qed.

Lemma foldM_app {A B : Type} (body : B -> A -> exc B) (acc : B) (l1 l2 : list A) :
  foldM body acc (l1 ++ l2) = foldM body acc l1 ≫= fun acc' => foldM body acc' l2.
Proof.
  revert acc; induction l1 as [|a l1 IH]; intros acc; cbn; [reflexivity|].
  destruct (body acc a) as [acc'|e]; cbn; [apply IH | reflexivity].
Qed.

Lemma dict_lookup_store (k k' : hkey) (key v : value) (d : pydict) :
  hash_key key = Some k' ->
  dict_lookup k (dict_store key k' v d) =
    if decide (k = k') then Some v else dict_lookup k d.
Proof.
  intros Hkey; induction d as [|[key0 v0] d IH]; cbn.
  - rewrite Hkey. destruct (decide (k = k')) as [->|Hne].
    + rewrite decide_True; done.
    + rewrite decide_False; [done | congruence].
  - destruct (decide (hash_key key0 = Some k')) as [H0|H0]; cbn.
    + destruct (decide (k = k')) as [->|Hne].
      * rewrite !decide_True; done.
      * rewrite !decide_False; [done | congruence ..].
    + destruct (decide (hash_key key0 = Some k)) as [H1|H1]; [|exact IH].
      rewrite decide_False; [done | congruence].
Qed.

Lemma dict_keys_store (key v : value) (k : hkey) (d : pydict) :
  hash_key key = Some k ->
  dict_keys (dict_store key k v d) =
    if decide (Some k ∈ dict_keys d) then dict_keys d else dict_keys d ++ [Some k].
Proof.
  intros Hkey; induction d as [|[key0 v0] d IH]; cbn.
  - rewrite decide_False by apply not_elem_of_nil. cbn. by rewrite Hkey.
  - destruct (decide (hash_key key0 = Some k)) as [H0|H0]; cbn.
    + rewrite decide_True; [done | rewrite H0; left].
    + fold (dict_keys d). fold (dict_keys (dict_store key k v d)). rewrite IH.
      destruct (decide (Some k ∈ dict_keys d)) as [Hin|Hin].
      * rewrite decide_True; [done | by right].
      * rewrite decide_False; [done|].
        intros [?|?]%elem_of_cons; congruence.
Qed.

Lemma dict_store_NoDup (key v : value) (k : hkey) (d : pydict) :
  hash_key key = Some k -> NoDup (dict_keys d) ->
  NoDup (dict_keys (dict_store key k v d)).
Proof.
  intros Hkey Hnd. rewrite (dict_keys_store _ _ _ _ Hkey).
  destruct (decide (Some k ∈ dict_keys d)) as [Hin|Hin]; [done|].
  apply NoDup_app. split_and!; [done | | apply NoDup_singleton].
  intros x Hx Hx'%list_elem_of_singleton. by subst.
Qed.

(** Every item of a dict after a store is an old item, or sits under the
    stored key with the stored value. *)
Lemma dict_store_elem (key v key0 v0 : value) (k : hkey) (d : pydict) :
  hash_key key = Some k ->
  (key0, v0) ∈ dict_store key k v d ->
  (key0, v0) ∈ d \/ (hash_key key0 = Some k /\ v0 = v).
Proof.
  intros Hkey; induction d as [|[key1 v1] d IH]; cbn.
  - intros [= -> ->]%list_elem_of_singleton. by right.
  - destruct (decide (hash_key key1 = Some k)) as [H1|H1]; cbn.
    + intros [[= -> ->]|Hin]%elem_of_cons; [by right | by left; right].
    + intros [Heq|Hin]%elem_of_cons; [left; rewrite Heq; left|].
      destruct (IH Hin) as [?|?]; [by left; right | by right].
Qed.

(** [1], [1.0] and [True] are one key; [1.5] is another, and so is ["1"]. *)
Example one_key_for_equal_numbers :
  hash_key (VInt 1) = hash_key (VFloat (S754_finite false 4 (-2))) /\
  hash_key (VInt 1) = hash_key (VBool true) /\
  hash_key (VInt 1) <> hash_key (VFloat (S754_finite false 3 (-1))) /\
  hash_key (VInt 1) <> hash_key (VStr "1").
Proof. repeat split; discriminate. Qed.

Example store_keeps_first_key :
  dict_setitem [(VInt 1, VStr "a"); (VStr "x", VStr "b")] (VBool true) (VStr "c") =
    Ok [(VInt 1, VStr "c"); (VStr "x", VStr "b")].
Proof. reflexivity. Qed.

End PyFacts.

(** ** Facts about the transform stage *)

Module TransformFacts.
Import PyFacts.

Local Abbreviation code_step :=
  (dict_comprehension_step
     (fun c => py_get c (str "cca3") VNone)
     (fun c => py_get c (str "cca2") VNone)
     (fun c => py_and (py_get c (str "cca3") VNone) (py_get c (str "cca2") VNone))).

Lemma build_cca3_map_list (cs : list value) :
  build_cca3_map (VList cs) = foldM code_step [] cs.
Proof. reflexivity. Qed.

(** One round of the comprehension of [build_cca3_map]. *)
Lemma code_step_eq (acc : pydict) (c : value) :
  code_step acc c =
    if isinstance_dict c
    then match record_codes c with
         | Some (a, b) => dict_setitem acc a b
         | None => Ok acc
         end
    else Raise AttributeError.
Proof.
  destruct c as [| | | | | |d]; try reflexivity.
  unfold dict_comprehension_step, py_and, record_codes, both_nonempty, field, py_get.
  cbn. destruct (dict_lookup (KStr "cca3") d) as [a|]; cbn; [|reflexivity].
  destruct (truthy a) eqn:Ha; cbn; [|rewrite Ha; by destruct (dict_lookup (KStr "cca2") d)].
  destruct (dict_lookup (KStr "cca2") d) as [b|]; cbn; [|reflexivity].
  destruct (truthy b); reflexivity.
Qed.

Lemma foldM_is_ok {A B : Type} (body : B -> A -> exc B) (ok : A -> bool) :
  (forall acc a, is_ok (body acc a) = ok a) ->
  forall l acc, is_ok (foldM body acc l) = forallb ok l.
Proof.
  intros Hbody; induction l as [|a l IH]; intros acc; cbn; [reflexivity|].
  specialize (Hbody acc a). destruct (body acc a) as [acc'|e]; cbn in *.
  - rewrite <- Hbody. apply IH.
  - by rewrite <- Hbody.
Qed.

Lemma code_step_is_ok (acc : pydict) (c : value) :
  is_ok (code_step acc c) = table_record_ok c.
Proof.
  rewrite code_step_eq. unfold table_record_ok.
  destruct (isinstance_dict c); [|reflexivity]. cbn.
  destruct (record_codes c) as [[a b]|]; [|reflexivity].
  unfold dict_setitem, hashable. by destruct (hash_key a).
Qed.

(** On digestible records the comprehension is the scan of the
    specification. *)
Lemma code_fold_spec (cs : list value) (acc : pydict) :
  forallb table_record_ok cs = true ->
  foldM code_step acc cs =
    Ok (fold_left
          (fun tbl c =>
             match field c "cca3", field c "cca2" with
             | Some a, Some b => if both_nonempty a b then insert_code tbl a b else tbl
             | _, _ => tbl
             end) cs acc).
Proof.
  revert acc; induction cs as [|c cs IH]; intros acc Hok; [reflexivity|].
  cbn in Hok. apply andb_prop in Hok as [Hc Hcs].
  cbn [foldM fold_left]. rewrite code_step_eq.
  unfold table_record_ok in Hc. apply andb_prop in Hc as [Hd Hc]. rewrite Hd.
  unfold record_codes in *.
  destruct (field c "cca3") as [a|]; [|apply IH, Hcs].
  destruct (field c "cca2") as [b|]; [|apply IH, Hcs].
  destruct (both_nonempty a b); [|apply IH, Hcs].
  unfold dict_setitem, insert_code, hashable in *.
  destruct (hash_key a); [apply IH, Hcs | discriminate].
Qed.

(** Last write wins: what the scan of the specification holds under a
    key is the [cca2] of the last record with that [cca3]. *)
Lemma code_scan_lookup (k : hkey) (cs : list value) (acc : pydict) :
  forallb table_record_ok cs = true ->
  dict_lookup k
    (fold_left
       (fun tbl c =>
          match field c "cca3", field c "cca2" with
          | Some a, Some b => if both_nonempty a b then insert_code tbl a b else tbl
          | _, _ => tbl
          end) cs acc) =
  match last_code k cs with
  | Some v => Some v
  | None => dict_lookup k acc
  end.
Proof.
  revert acc; induction cs as [|c cs IH]; intros acc Hok; [reflexivity|].
  cbn in Hok. apply andb_prop in Hok as [Hc Hcs].
  cbn [fold_left last_code]. rewrite (IH _ Hcs).
  destruct (last_code k cs) as [v|]; [reflexivity|].
  unfold table_record_ok in Hc. apply andb_prop in Hc as [_ Hc].
  unfold record_codes in *.
  destruct (field c "cca3") as [a|]; [|reflexivity].
  destruct (field c "cca2") as [b|]; [|reflexivity].
  destruct (both_nonempty a b); [|reflexivity].
  unfold insert_code, hashable in *.
  destruct (hash_key a) as [ka|] eqn:Ha; [|discriminate].
  rewrite (dict_lookup_store k ka a b acc Ha).
  destruct (decide (k = ka)) as [->|Hne].
  - by rewrite bool_decide_eq_true_2.
  - rewrite bool_decide_eq_false_2; [done | congruence].
Qed.

Local Abbreviation border_step tbl :=
  (list_comprehension_step
     (fun b => py_get (VDict tbl) b VNone)
     (fun b => py_get (VDict tbl) b VNone)).

(** The comprehension over the borders keeps, in order, what resolves;
    it raises when a border cannot be hashed. *)
Lemma border_fold (tbl : pydict) (bs acc : list value) :
  foldM (border_step tbl) acc bs =
    if forallb hashable bs then Ok (acc ++ translate tbl bs) else Raise TypeError.
Proof.
  revert acc; induction bs as [|b bs IH]; intros acc; cbn.
  - by rewrite app_nil_r.
  - unfold list_comprehension_step, py_get, hashable, resolve at 1.
    destruct (hash_key b) as [k|]; cbn; [|reflexivity].
    destruct (dict_lookup k tbl) as [v|]; cbn.
    + destruct (truthy v); cbn; rewrite IH; [|reflexivity].
      by rewrite <- app_assoc.
    + apply IH.
Qed.

Lemma py_get_field (d : pydict) (name : string) (dflt : value) :
  py_get (VDict d) (str name) dflt = Ok (default dflt (dict_lookup (KStr name) d)).
Proof. reflexivity. Qed.

(** One round of the loop of [process_data]. *)
Lemma process_record_eq (tbl acc : pydict) (c : value) :
  process_record tbl acc c =
    if isinstance_dict c
    then
      if emitted c
      then match py_iter (borders_of c) with
           | Ok bs =>
               if forallb hashable bs
               then dict_setitem acc (common_name c) (entry_of tbl c)
               else Raise TypeError
           | Raise e => Raise e
           end
      else Ok acc
    else Raise AttributeError.
Proof.
  destruct c as [| | | | | |d]; try reflexivity.
  unfold process_record, emitted, entry_of, elements, common_name, cca2_of,
    region_of, borders_of, field.
  rewrite !py_get_field. cbn [mbind exc_bind].
  assert (Hname :
    (if isinstance_dict (default (VDict []) (dict_lookup (KStr "name") d))
     then py_get (default (VDict []) (dict_lookup (KStr "name") d)) (str "common") VNone
     else mret VNone) =
    Ok match dict_lookup (KStr "name") d with
       | Some (VDict n) => default VNone (dict_lookup (KStr "common") n)
       | Some _ => VNone
       | None => VNone
       end).
  { destruct (dict_lookup (KStr "name") d) as [[| | | | | |n]|]; reflexivity. }
  rewrite Hname. cbn [mbind exc_bind].
  set (name := match dict_lookup (KStr "name") d with
               | Some (VDict n) => default VNone (dict_lookup (KStr "common") n)
               | Some _ => VNone
               | None => VNone
               end).
  destruct (truthy name); cbn [negb orb andb]; [|reflexivity].
  destruct (truthy (default VNone (dict_lookup (KStr "cca2") d)));
    cbn [negb orb andb]; [|reflexivity].
  destruct (py_iter (default (VList []) (dict_lookup (KStr "borders") d)))
    as [bs|e]; cbn [mbind exc_bind]; [|reflexivity].
  unfold list_comprehension. rewrite border_fold.
  destruct (forallb hashable bs); reflexivity.
Qed.

Lemma process_record_is_ok (tbl acc : pydict) (c : value) :
  is_ok (process_record tbl acc c) = output_record_ok c.
Proof.
  rewrite process_record_eq. unfold output_record_ok.
  destruct (isinstance_dict c); [|reflexivity]. cbn [andb].
  destruct (emitted c); [|reflexivity].
  destruct (py_iter (borders_of c)) as [bs|e]; [|reflexivity].
  destruct (forallb hashable bs); [|reflexivity].
  unfold dict_setitem, hashable. by destruct (hash_key (common_name c)).
Qed.

(** A round that returns either skipped the record or stored its entry
    under its name. *)
Lemma process_record_inv (tbl acc acc' : pydict) (c : value) :
  process_record tbl acc c = Ok acc' ->
  (emitted c = false /\ acc' = acc) \/
  (emitted c = true /\
   exists k, hash_key (common_name c) = Some k /\
             acc' = dict_store (common_name c) k (entry_of tbl c) acc).
Proof.
  rewrite process_record_eq.
  destruct (isinstance_dict c); [|discriminate].
  destruct (emitted c); [|intros [= <-]; by left].
  destruct (py_iter (borders_of c)) as [bs|e]; [|discriminate].
  destruct (forallb hashable bs); [|discriminate].
  unfold dict_setitem. destruct (hash_key (common_name c)) as [k|]; [|discriminate].
  intros [= <-]. right. eauto.
Qed.

Lemma last_named_app (k : hkey) (l1 l2 : list value) :
  last_named k (l1 ++ l2) =
    match last_named k l2 with
    | Some c => Some c
    | None => last_named k l1
    end.
Proof.
  induction l1 as [|c l1 IH]; cbn.
  - by destruct (last_named k l2).
  - rewrite IH. by destruct (last_named k l2).
Qed.

Lemma last_named_elem (k : hkey) (cs : list value) (c : value) :
  last_named k cs = Some c ->
  c ∈ cs /\ emitted c = true /\ hash_key (common_name c) = Some k.
Proof.
  induction cs as [|c0 cs IH]; cbn; [discriminate|].
  destruct (last_named k cs) as [c'|].
  - intros [= ->]. destruct IH as (? & ? & ?); [done|]. split_and!; [by right | done ..].
  - destruct (emitted c0) eqn:He; cbn; [|discriminate].
    case_bool_decide; [|discriminate].
    intros [= <-]. split_and!; [left | done ..].
Qed.

(** The mapping after the loop: under each key the entry of the last
    record emitted under it, or what was there before. *)
Lemma process_loop_lookup (tbl : pydict) (k : hkey) (cs : list value) (acc out : pydict) :
  foldM (process_record tbl) acc cs = Ok out ->
  dict_lookup k out =
    match last_named k cs with
    | Some c => Some (entry_of tbl c)
    | None => dict_lookup k acc
    end.
Proof.
  revert acc; induction cs as [|c cs IH]; intros acc; cbn [foldM last_named].
  - by intros [= <-].
  - intros (acc' & Hstep & Hrest)%bind_ok.
    rewrite (IH _ Hrest). destruct (last_named k cs) as [c'|]; [reflexivity|].
    destruct (process_record_inv _ _ _ _ Hstep) as [[He ->]|(He & k' & Hk' & ->)];
      rewrite He; cbn [andb]; [reflexivity|].
    rewrite (dict_lookup_store k k' _ _ _ Hk').
    destruct (decide (k = k')) as [->|Hne].
    + by rewrite bool_decide_eq_true_2.
    + rewrite bool_decide_eq_false_2; [done | congruence].
Qed.

(** Every item of the mapping after the loop was there before, or holds
    the entry of an emitted record under that record's name. *)
Lemma process_loop_elem (tbl : pydict) (cs : list value) (acc out : pydict)
    (key e : value) :
  foldM (process_record tbl) acc cs = Ok out ->
  (key, e) ∈ out ->
  (key, e) ∈ acc \/
  exists c, c ∈ cs /\ emitted c = true /\
            hash_key key = hash_key (common_name c) /\
            hashable key = true /\ e = entry_of tbl c.
Proof.
  revert acc; induction cs as [|c cs IH]; intros acc; cbn [foldM].
  - intros [= <-] Hin. by left.
  - intros (acc' & Hstep & Hrest)%bind_ok Hin.
    destruct (IH _ Hrest Hin) as [Hacc'|(c' & Hc' & H)].
    2:{ right. exists c'. split; [by right | done]. }
    destruct (process_record_inv _ _ _ _ Hstep) as [[He ->]|(He & k' & Hk' & ->)];
      [by left|].
    destruct (dict_store_elem _ _ _ _ _ _ Hk' Hacc') as [?|[Hk ->]]; [by left|].
    right. exists c. split_and!; [left | done | congruence | | done].
    unfold hashable. by rewrite Hk.
Qed.

Lemma process_loop_NoDup (tbl : pydict) (cs : list value) (acc out : pydict) :
  foldM (process_record tbl) acc cs = Ok out ->
  NoDup (dict_keys acc) -> NoDup (dict_keys out).
Proof.
  revert acc; induction cs as [|c cs IH]; intros acc; cbn [foldM].
  - by intros [= <-].
  - intros (acc' & Hstep & Hrest)%bind_ok Hnd. apply (IH _ Hrest).
    destruct (process_record_inv _ _ _ _ Hstep) as [[He ->]|(He & k' & Hk' & ->)];
      [done|].
    by apply dict_store_NoDup.
Qed.

(** [process_data] is its two passes between two log records. *)
Lemma process_data_run (countries : value) (w : world) :
  process_data countries w =
    match (tbl ← build_cca3_map countries;
           cs ← py_iter countries;
           foldM (process_record tbl) [] cs) with
    | Ok out =>
        (Ok out,
         World (logged w ++ [LogProcessing] ++ [LogProcessed (length out)])
               (files w) (remote w))
    | Raise e =>
        (Raise e, World (logged w ++ [LogProcessing]) (files w) (remote w))
    end.
Proof.
  unfold process_data, mbind, M_bind, LOG_info, lift. cbn.
  destruct (build_cca3_map countries) as [tbl|e]; cbn; [|reflexivity].
  destruct (py_iter countries) as [cs|e]; cbn; [|reflexivity].
  destruct (foldM (process_record tbl) [] cs) as [out|e]; cbn; [|reflexivity].
  by rewrite <- app_assoc.
Qed.

(** A run of [process_data] on a list that returns went through both
    passes. *)
Lemma process_data_inv (cs : list value) (w w' : world) (out : pydict) :
  process_data (VList cs) w = (Ok out, w') ->
  exists tbl, build_cca3_map (VList cs) = Ok tbl /\
              foldM (process_record tbl) [] cs = Ok out.
Proof.
  rewrite process_data_run.
  destruct (build_cca3_map (VList cs)) as [tbl|e]; cbn; [|discriminate].
  destruct (foldM (process_record tbl) [] cs) as [out'|e] eqn:Hloop; cbn;
    [|discriminate].
  intros [= <- _]. eauto.
Qed.

Lemma dict_store_key (key v key0 v0 : value) (k : hkey) (d : pydict) :
  (key0, v0) ∈ dict_store key k v d ->
  key0 = key \/ exists v', (key0, v') ∈ d.
Proof.
  induction d as [|[key1 v1] d IH]; cbn.
  - intros [= -> ->]%list_elem_of_singleton. by left.
  - destruct (decide (hash_key key1 = Some k)) as [H1|H1]; cbn.
    + intros [[= -> ->]|Hin]%elem_of_cons; right;
        [exists v1; left | exists v0; by right].
    + intros [[= -> ->]|Hin]%elem_of_cons; [right; exists v1; left|].
      destruct (IH Hin) as [?|[v' ?]]; [by left | right; exists v'; by right].
Qed.

(** The keys of the mapping after the loop are keys it had before or
    the names of emitted records. *)
Lemma process_loop_key (tbl : pydict) (cs : list value) (acc out : pydict)
    (key e : value) :
  foldM (process_record tbl) acc cs = Ok out ->
  (key, e) ∈ out ->
  (exists e', (key, e') ∈ acc) \/
  exists c, c ∈ cs /\ emitted c = true /\ key = common_name c.
Proof.
  revert acc e; induction cs as [|c cs IH]; intros acc e; cbn [foldM].
  - intros [= <-] Hin. left; eauto.
  - intros (acc' & Hstep & Hrest)%bind_ok Hin.
    destruct (IH _ _ Hrest Hin) as [[e' Hacc']|(c' & Hc' & H)].
    2:{ right. exists c'. split; [by right | done]. }
    destruct (process_record_inv _ _ _ _ Hstep) as [[He ->]|(He & k' & Hk' & ->)];
      [left; eauto|].
    destruct (dict_store_key _ _ _ _ _ _ Hacc') as [->|?]; [|by left].
    right. exists c. split_and!; [left | done ..].
Qed.

Lemma truthy_not_null_nor_empty (v : value) :
  truthy v = true -> v <> VNone /\ v <> str "".
Proof. intros Ht; split; intros ->; discriminate. Qed.

Lemma incomplete_not_emitted (c : value) : incomplete c -> emitted c = false.
Proof.
  unfold incomplete, emitted, common_name, cca2_of.
  intros [H|[(v & H & Hv)|[(n & H & Hn)|H]]]; rewrite H; cbn.
  - reflexivity.
  - by destruct v.
  - by rewrite Hn.
  - apply andb_false_r.
Qed.

Lemma emitted_dict (c : value) : emitted c = true -> isinstance_dict c = true.
Proof. by destruct c. Qed.

Lemma process_record_skip (tbl acc : pydict) (c : value) :
  isinstance_dict c = true -> emitted c = false -> process_record tbl acc c = Ok acc.
Proof. intros Hd He. by rewrite process_record_eq, Hd, He. Qed.

Lemma process_loop_is_ok (tbl acc : pydict) (cs : list value) :
  is_ok (foldM (process_record tbl) acc cs) = forallb output_record_ok cs.
Proof. apply foldM_is_ok. intros; apply process_record_is_ok. Qed.

Lemma is_str_hashable (v : value) : is_str v = true -> hashable v = true.
Proof. by destruct v. Qed.

(** A record of the data model is digestible. *)
Lemma raw_country_digestible (c : value) :
  raw_country c = true -> table_record_ok c = true /\ output_record_ok c = true.
Proof.
  unfold raw_country, field_is.
  intros [[[[[Hd Hname]%andb_prop Hcca2]%andb_prop Hcca3]%andb_prop _]%andb_prop
            Hborders]%andb_prop.
  split.
  - unfold table_record_ok, record_codes. rewrite Hd. cbn [andb].
    destruct (field c "cca3") as [a|]; [|done].
    destruct (field c "cca2") as [b|]; [|done].
    destruct (both_nonempty a b); [|done]. by apply is_str_hashable.
  - unfold output_record_ok. rewrite Hd. cbn [andb].
    destruct (emitted c); [|done]. apply andb_true_intro. split.
    + unfold borders_of. destruct (field c "borders") as [[| | | | |l|]|]; try done.
      cbn. clear -Hborders. induction l as [|b l IH]; [done|].
      cbn in Hborders |- *. apply andb_prop in Hborders as [Hb Hl].
      by rewrite (is_str_hashable _ Hb), (IH Hl).
    + unfold common_name. destruct (field c "name") as [[| | | | | |n]|]; try done.
      cbn in Hname. unfold field in Hname.
      destruct (dict_lookup (KStr "common") n) as [v|]; [|done].
      by apply is_str_hashable.
Qed.

Lemma process_loop_skip (tbl acc : pydict) (pre post : list value) (c : value) :
  isinstance_dict c = true -> emitted c = false ->
  foldM (process_record tbl) acc (pre ++ c :: post) =
  foldM (process_record tbl) acc (pre ++ post).
Proof.
  intros Hd He. rewrite !foldM_app.
  destruct (foldM (process_record tbl) acc pre) as [acc'|e]; [|reflexivity].
  cbn [mbind exc_bind foldM]. by rewrite process_record_skip.
Qed.

Lemma build_cca3_map_skip (pre post : list value) (c : value) :
  isinstance_dict c = true -> record_codes c = None ->
  build_cca3_map (VList (pre ++ c :: post)) = build_cca3_map (VList (pre ++ post)).
Proof.
  intros Hd Hc. rewrite !build_cca3_map_list, !foldM_app.
  destruct (foldM code_step [] pre) as [acc'|e]; [|reflexivity].
  cbn [mbind exc_bind foldM]. by rewrite code_step_eq, Hd, Hc.
Qed.

End TransformFacts.

(** ** The transform stage meets its specification *)

Import PyFacts TransformFacts.

(** C1.  A record whose name field is missing, is not an object or lacks
    [common], or whose [cca2] is absent, is skipped by its round of the
    loop of [process_data]: the round returns the mapping as it was and
    raises nothing, so the loop gives what it gives without the record.
    Every entry of the output of [process_data] has a name and a [cca2]
    that are neither null nor empty, and is the entry of another record
    of the input. *)
Theorem incomplete_record_skipped (pre post : list value) (d : pydict) :
  incomplete (VDict d) ->
  (forall tbl formatted,
     process_record tbl formatted (VDict d) = Ok formatted) /\
  (forall tbl formatted,
     foldM (process_record tbl) formatted (pre ++ VDict d :: post) =
     foldM (process_record tbl) formatted (pre ++ post)) /\
  (forall w w' out key e,
     process_data (VList (pre ++ VDict d :: post)) w = (Ok out, w') ->
     (key, e) ∈ out ->
     (key <> VNone /\ key <> str "" /\ truthy key = true) /\
     (exists cca2, field e "cca2" = Some cca2 /\
                   cca2 <> VNone /\ cca2 <> str "" /\ truthy cca2 = true) /\
     exists c tbl, c ∈ pre ++ post /\ emitted c = true /\
                   hash_key key = hash_key (common_name c) /\
                   build_cca3_map (VList (pre ++ VDict d :: post)) = Ok tbl /\
                   e = entry_of tbl c).
Proof.
  intros Hinc. pose proof (incomplete_not_emitted _ Hinc) as Hne.
  assert (Hskip : forall tbl formatted,
            process_record tbl formatted (VDict d) = Ok formatted).
  { intros. by apply process_record_skip. }
  split_and!; [exact Hskip | |].
  - intros tbl formatted. rewrite !foldM_app.
    destruct (foldM (process_record tbl) formatted pre) as [acc|e]; [|reflexivity].
    cbn [mbind exc_bind foldM]. by rewrite Hskip.
  - intros w w' out key e (tbl & Hbuild & Hloop)%process_data_inv Hin.
    destruct (process_loop_key _ _ _ _ _ _ Hloop Hin)
      as [[e' []%elem_of_nil]|(c0 & _ & He0 & ->)].
    destruct (process_loop_elem _ _ _ _ _ _ Hloop Hin)
      as [[]%elem_of_nil|(c & Hc & He & Hk & _ & ->)].
    unfold emitted in He0, He.
    apply andb_prop in He0 as [Hname0 _]. pose proof He as He'.
    apply andb_prop in He as [_ Hcca2].
    destruct (truthy_not_null_nor_empty _ Hname0).
    destruct (truthy_not_null_nor_empty _ Hcca2).
    split_and!; [done .. | by exists (cca2_of c) |].
    exists c, tbl. split_and!; [|done ..].
    apply elem_of_app in Hc as [?|[->|?]%elem_of_cons];
      [apply elem_of_app; by left | | apply elem_of_app; by right].
    unfold emitted in Hne. congruence.
Qed.

Lemma incomplete_record_skipped_witness :
  incomplete (VDict nameless) /\
  process_record [] [] (VDict nameless) = Ok [].
Proof.
  split; [left; reflexivity|].
  apply (incomplete_record_skipped [syria] [iraq] nameless). left; reflexivity.
Defined.

Lemma spec_code_table_NoDup (cs : list value) (acc : pydict) :
  NoDup (dict_keys acc) ->
  NoDup (dict_keys
    (fold_left
       (fun tbl c =>
          match field c "cca3", field c "cca2" with
          | Some a, Some b => if both_nonempty a b then insert_code tbl a b else tbl
          | _, _ => tbl
          end) cs acc)).
Proof.
  revert acc; induction cs as [|c cs IH]; intros acc Hnd; [done|].
  cbn [fold_left]. apply IH.
  destruct (field c "cca3") as [a|]; [|done].
  destruct (field c "cca2") as [b|]; [|done].
  destruct (both_nonempty a b); [|done].
  unfold insert_code. destruct (hash_key a) as [k|] eqn:Ha; [|done].
  by apply dict_store_NoDup.
Qed.

Lemma spec_code_table_skip (wanted : value -> value -> bool) (pre post : list value)
    (c : value) :
  field c "cca3" = None \/ field c "cca2" = None ->
  spec_code_table wanted (pre ++ c :: post) = spec_code_table wanted (pre ++ post).
Proof.
  intros Hc. unfold spec_code_table. rewrite !fold_left_app. cbn [fold_left].
  destruct Hc as [->| ->]; [done|]. by destruct (field c "cca3").
Qed.

(** C2, as the specification words it with "present", fails: a record
    whose [cca2] is present and empty is in the table of the
    specification and not in the table of the code. *)
Lemma present_but_empty_code_not_inserted :
  field empty_code "cca3" = Some (str "ABC") /\
  field empty_code "cca2" = Some (str "") /\
  build_cca3_map (VList [empty_code]) = Ok [] /\
  spec_code_table both_present [empty_code] = [(str "ABC", str "")].
Proof. repeat split. Qed.

(** C2, amended.  On a sequence of objects whose stored [cca3] are
    hashable, [build_cca3_map] returns exactly the mapping that, scanning
    the records in input order, inserts [(cca3, cca2)] for every record
    where both codes are present and non-empty.  Under each key it holds
    the [cca2] of the last record with that [cca3], each key once, and a
    record that misses a code contributes nothing. *)
Theorem build_cca3_map_scans_nonempty_codes (cs : list value) :
  forallb table_record_ok cs = true ->
  build_cca3_map (VList cs) = Ok (spec_code_table both_nonempty cs) /\
  (forall k, dict_lookup k (spec_code_table both_nonempty cs) = last_code k cs) /\
  NoDup (dict_keys (spec_code_table both_nonempty cs)) /\
  (forall pre c post,
     cs = pre ++ c :: post ->
     field c "cca3" = None \/ field c "cca2" = None ->
     build_cca3_map (VList cs) = build_cca3_map (VList (pre ++ post))).
Proof.
  intros Hok.
  assert (Hbuild : forall l, forallb table_record_ok l = true ->
            build_cca3_map (VList l) = Ok (spec_code_table both_nonempty l)).
  { intros l Hl. rewrite build_cca3_map_list. by apply code_fold_spec. }
  split_and!.
  - by apply Hbuild.
  - intros k. unfold spec_code_table. rewrite code_scan_lookup by done.
    by destruct (last_code k cs).
  - apply spec_code_table_NoDup. apply NoDup_nil_2.
  - intros pre c post -> Hc. rewrite !Hbuild.
    + by rewrite spec_code_table_skip.
    + rewrite forallb_app in Hok |- *. cbn in Hok.
      destruct (forallb table_record_ok pre); [|done].
      by destruct (table_record_ok c).
    + done.
Qed.

Lemma build_cca3_map_scans_nonempty_codes_witness :
  forallb table_record_ok [syria; codeless; iraq; empty_code] = true /\
  build_cca3_map (VList [syria; codeless; iraq; empty_code]) =
    Ok [(str "SYR", str "SY"); (str "IRQ", str "IQ")].
Proof.
  split; [reflexivity|].
  apply (build_cca3_map_scans_nonempty_codes [syria; codeless; iraq; empty_code]).
  reflexivity.
Defined.

Lemma translate_filter_map (tbl : pydict) (bs : list value) :
  translate tbl bs =
    map (table_get tbl) (List.filter (fun b => truthy (table_get tbl b)) bs).
Proof.
  induction bs as [|b bs IH]; [reflexivity|].
  cbn [translate omap list_omap List.filter]. fold (translate tbl bs). rewrite IH.
  assert (Hget : table_get tbl b =
            default VNone (hash_key b ≫= fun k => dict_lookup k tbl)) by done.
  unfold resolve.
  destruct (hash_key b ≫= fun k => dict_lookup k tbl) as [v|]; cbn in Hget |- *;
    rewrite Hget; [|reflexivity].
  destruct (truthy v); [|reflexivity].
  cbn [map]. by rewrite Hget.
Qed.

Lemma translate_resolved (tbl : pydict) (bs : list value) (v : value) :
  v ∈ translate tbl bs ->
  truthy v = true /\
  exists b k, b ∈ bs /\ hash_key b = Some k /\ dict_lookup k tbl = Some v.
Proof.
  unfold translate. intros (b & Hb & Hres)%list_elem_of_omap.
  unfold resolve in Hres.
  destruct (hash_key b) as [k|] eqn:Hk; cbn in Hres; [|discriminate].
  destruct (dict_lookup k tbl) as [v'|] eqn:Hv; cbn in Hres; [|discriminate].
  destruct (truthy v') eqn:Ht; [|discriminate].
  injection Hres as <-. split; [done | eauto].
Qed.

(** A record of a loop that returned was digestible. *)
Lemma process_loop_record_ok (tbl acc out : pydict) (cs : list value) (c : value) :
  foldM (process_record tbl) acc cs = Ok out -> c ∈ cs -> output_record_ok c = true.
Proof.
  intros Hloop Hc. pose proof (process_loop_is_ok tbl acc cs) as Hok.
  rewrite Hloop in Hok. symmetry in Hok. cbn in Hok.
  rewrite forallb_forall in Hok. apply Hok. by apply list_elem_of_In.
Qed.

Lemma output_record_ok_emitted (c : value) :
  output_record_ok c = true -> emitted c = true ->
  exists bs k, py_iter (borders_of c) = Ok bs /\ forallb hashable bs = true /\
               hash_key (common_name c) = Some k.
Proof.
  unfold output_record_ok. intros Hok He. rewrite He in Hok.
  apply andb_prop in Hok as [_ Hok]. apply andb_prop in Hok as [Hbs Hname].
  destruct (py_iter (borders_of c)) as [bs|]; [|discriminate].
  unfold hashable in Hname.
  destruct (hash_key (common_name c)) as [k|]; [|discriminate]. eauto.
Qed.

(** C3.  The borders of every entry of the output are the borders of a
    record of that name mapped through the code table, with the codes
    that do not resolve to a non-empty value removed and the others in
    their order; each element is the value the table holds for a code of
    the input borders, and none is null or the empty string. *)
Theorem borders_are_resolved_codes (cs : list value) (w w' : world)
    (out : pydict) (key e : value) :
  process_data (VList cs) w = (Ok out, w') ->
  (key, e) ∈ out ->
  exists c tbl bs,
    c ∈ cs /\ emitted c = true /\ hash_key key = hash_key (common_name c) /\
    build_cca3_map (VList cs) = Ok tbl /\
    py_iter (borders_of c) = Ok bs /\
    (forall l, field c "borders" = Some (VList l) -> bs = l) /\
    field e "borders" = Some (VList (translate tbl bs)) /\
    translate tbl bs =
      map (table_get tbl) (List.filter (fun b => truthy (table_get tbl b)) bs) /\
    Forall (fun v =>
              v <> VNone /\ v <> str "" /\ truthy v = true /\
              exists b k, b ∈ bs /\ hash_key b = Some k /\ dict_lookup k tbl = Some v)
           (translate tbl bs).
Proof.
  intros (tbl & Hbuild & Hloop)%process_data_inv Hin.
  destruct (process_loop_elem _ _ _ _ _ _ Hloop Hin)
    as [[]%elem_of_nil|(c & Hc & He & Hk & _ & ->)].
  pose proof (process_loop_record_ok _ _ _ _ _ Hloop Hc) as Hok.
  destruct (output_record_ok_emitted _ Hok He) as (bs & k & Hbs & _ & _).
  exists c, tbl, bs. split_and!; try done.
  - intros l Hl. unfold borders_of in Hbs. rewrite Hl in Hbs. cbn in Hbs. congruence.
  - unfold entry_of, elements. by rewrite Hbs.
  - apply translate_filter_map.
  - apply Forall_forall. intros v Hv.
    destruct (translate_resolved _ _ _ Hv) as [Ht Hb].
    destruct (truthy_not_null_nor_empty _ Ht). done.
Qed.

Lemma borders_are_resolved_codes_witness :
  process_data (VList [syria; iraq; israel; jordan; lebanon; turkey])
               (quiet_world NoResponse) =
    (Ok [(str "Syria", entry_of [(str "SYR", str "SY"); (str "IRQ", str "IQ");
                                 (str "ISR", str "IL"); (str "JOR", str "JO");
                                 (str "LBN", str "LB"); (str "TUR", str "TR")] syria);
         (str "Iraq", obj [("cca2", str "IQ"); ("region", str "Asia");
                           ("borders", VList [str "SY"; str "TR"; str "JO"])]);
         (str "Israel", obj [("cca2", str "IL"); ("region", str "Asia");
                             ("borders", VList [str "SY"; str "JO"; str "LB"])]);
         (str "Jordan", obj [("cca2", str "JO"); ("region", str "Asia");
                             ("borders", VList [str "SY"; str "IQ"; str "IL"])]);
         (str "Lebanon", obj [("cca2", str "LB"); ("region", str "Asia");
                              ("borders", VList [str "SY"; str "IL"])]);
         (str "Turkey", obj [("cca2", str "TR"); ("region", str "Asia");
                             ("borders", VList [str "SY"; str "IQ"])])],
     World [LogProcessing; LogProcessed 6] ∅ (fun _ => NoResponse)) /\
  exists c tbl bs,
    c ∈ [syria; iraq; israel; jordan; lebanon; turkey] /\ emitted c = true /\
    hash_key (str "Syria") = hash_key (common_name c) /\
    build_cca3_map (VList [syria; iraq; israel; jordan; lebanon; turkey]) = Ok tbl /\
    py_iter (borders_of c) = Ok bs /\
    (forall l, field c "borders" = Some (VList l) -> bs = l) /\
    field (obj [("cca2", str "SY"); ("region", str "Asia");
                ("borders", VList [str "IQ"; str "IL"; str "JO"; str "LB"; str "TR"])])
          "borders" = Some (VList (translate tbl bs)) /\
    translate tbl bs =
      map (table_get tbl) (List.filter (fun b => truthy (table_get tbl b)) bs) /\
    Forall (fun v =>
              v <> VNone /\ v <> str "" /\ truthy v = true /\
              exists b k, b ∈ bs /\ hash_key b = Some k /\ dict_lookup k tbl = Some v)
           (translate tbl bs).
Proof.
  split; [reflexivity|].
  eapply (borders_are_resolved_codes
            [syria; iraq; israel; jordan; lebanon; turkey] (quiet_world NoResponse)).
  - reflexivity.
  - left.
Defined.

Lemma entry_region (tbl : pydict) (c : value) :
  field (entry_of tbl c) "region" = Some (region_of c).
Proof. reflexivity. Qed.

Lemma region_of_present (c r : value) : field c "region" = Some r -> region_of c = r.
Proof. unfold region_of. by intros ->. Qed.

Lemma region_of_absent (c : value) : field c "region" = None -> region_of c = str "Unknown".
Proof. unfold region_of. by intros ->. Qed.

(** C4.  Every entry of the output carries the region of a record of its
    name: the value under the record's region key when the key is
    present, the string "Unknown" when it is absent.  The record whose
    entry the output holds under a name is the last one emitted under
    it. *)
Theorem region_is_input_or_unknown (cs : list value) (w w' : world) (out : pydict) :
  process_data (VList cs) w = (Ok out, w') ->
  (forall key e,
     (key, e) ∈ out ->
     exists c, c ∈ cs /\ emitted c = true /\
               hash_key key = hash_key (common_name c) /\
               (forall r, field c "region" = Some r -> field e "region" = Some r) /\
               (field c "region" = None -> field e "region" = Some (str "Unknown"))) /\
  (forall k c,
     last_named k cs = Some c ->
     exists e, dict_lookup k out = Some e /\
               (forall r, field c "region" = Some r -> field e "region" = Some r) /\
               (field c "region" = None -> field e "region" = Some (str "Unknown"))).
Proof.
  intros (tbl & Hbuild & Hloop)%process_data_inv. split.
  - intros key e Hin.
    destruct (process_loop_elem _ _ _ _ _ _ Hloop Hin)
      as [[]%elem_of_nil|(c & Hc & He & Hk & _ & ->)].
    exists c. split_and!; try done; rewrite entry_region.
    + by intros r ->%region_of_present.
    + by intros ->%region_of_absent.
  - intros k c Hlast. exists (entry_of tbl c).
    rewrite (process_loop_lookup _ k _ _ _ Hloop), Hlast, entry_region.
    split_and!; [done | |].
    + by intros r ->%region_of_present.
    + by intros ->%region_of_absent.
Qed.

Lemma region_is_input_or_unknown_witness :
  process_data (VList [syria; island]) (quiet_world NoResponse) =
    (Ok [(str "Syria", entry_of [(str "SYR", str "SY"); (str "ISL", str "IS")] syria);
         (str "Iceland", obj [("cca2", str "IS"); ("region", str "Unknown");
                              ("borders", VList [])])],
     World [LogProcessing; LogProcessed 2] ∅ (fun _ => NoResponse)) /\
  exists e, dict_lookup (KStr "Iceland")
              [(str "Syria", entry_of [(str "SYR", str "SY"); (str "ISL", str "IS")] syria);
               (str "Iceland", obj [("cca2", str "IS"); ("region", str "Unknown");
                                    ("borders", VList [])])] = Some e /\
            (forall r, field island "region" = Some r -> field e "region" = Some r) /\
            (field island "region" = None -> field e "region" = Some (str "Unknown")).
Proof.
  split; [reflexivity|].
  eapply (region_is_input_or_unknown [syria; island] (quiet_world NoResponse));
    reflexivity.
Defined.

(** C5, as stated, fails where it says that the earlier record leaves no
    other trace in the output: [sudan] is overwritten by [sudan_again],
    yet its code is what [egypt] has for a border, and its place is the
    place of the name in the output.  Without it the output has neither. *)
Lemma overwritten_record_leaves_trace :
  emitted sudan = true /\ emitted sudan_again = true /\
  common_name sudan = common_name sudan_again /\
  fst (process_data (VList [sudan; egypt; sudan_again]) (quiet_world NoResponse)) =
    Ok [(str "Sudan", obj [("cca2", str "SS"); ("region", str "Unknown");
                           ("borders", VList [])]);
        (str "Egypt", obj [("cca2", str "EG"); ("region", str "Unknown");
                           ("borders", VList [str "SD"])])] /\
  fst (process_data (VList [egypt; sudan_again]) (quiet_world NoResponse)) =
    Ok [(str "Egypt", obj [("cca2", str "EG"); ("region", str "Unknown");
                           ("borders", VList [])]);
        (str "Sudan", obj [("cca2", str "SS"); ("region", str "Unknown");
                           ("borders", VList [])])].
Proof. repeat split. Qed.

(** C5, amended.  When two emitted records have the same name and no
    later record has it, the output binds the name to the entry built
    from the later one; the output has every name once, and under the
    same code table it is, as a mapping, what the loop gives with the
    earlier record taken out of the sequence. *)
Theorem last_record_with_name_wins (pre mid post : list value) (c1 c2 : value)
    (k : hkey) (w w' : world) (out : pydict) :
  process_data (VList (pre ++ c1 :: mid ++ c2 :: post)) w = (Ok out, w') ->
  emitted c1 = true -> emitted c2 = true ->
  hash_key (common_name c1) = Some k -> hash_key (common_name c2) = Some k ->
  last_named k post = None ->
  exists tbl,
    build_cca3_map (VList (pre ++ c1 :: mid ++ c2 :: post)) = Ok tbl /\
    dict_lookup k out = Some (entry_of tbl c2) /\
    NoDup (dict_keys out) /\
    exists out',
      foldM (process_record tbl) [] (pre ++ mid ++ c2 :: post) = Ok out' /\
      forall k', dict_lookup k' out' = dict_lookup k' out.
Proof.
  intros (tbl & Hbuild & Hloop)%process_data_inv He1 He2 Hk1 Hk2 Hpost.
  assert (Hlast2 : last_named k (mid ++ c2 :: post) = Some c2).
  { rewrite last_named_app. cbn [last_named]. rewrite Hpost, He2.
    by rewrite bool_decide_eq_true_2. }
  exists tbl. split_and!; [done | | |].
  - rewrite (process_loop_lookup _ k _ _ _ Hloop).
    rewrite last_named_app. cbn [last_named]. by rewrite Hlast2.
  - apply (process_loop_NoDup _ _ _ _ Hloop). apply NoDup_nil_2.
  - pose proof (process_loop_is_ok tbl [] (pre ++ c1 :: mid ++ c2 :: post)) as Hok.
    rewrite Hloop in Hok. symmetry in Hok. cbn [is_ok] in Hok.
    rewrite forallb_app in Hok. cbn [forallb] in Hok.
    apply andb_prop in Hok as [Hpre [_ Hrest]%andb_prop].
    destruct (foldM (process_record tbl) [] (pre ++ mid ++ c2 :: post))
      as [out'|e] eqn:Hloop'.
    2:{ pose proof (process_loop_is_ok tbl [] (pre ++ mid ++ c2 :: post)) as Hok'.
        rewrite Hloop', forallb_app, Hpre, Hrest in Hok'. discriminate. }
    exists out'. split; [done|]. intros k'.
    rewrite (process_loop_lookup _ k' _ _ _ Hloop), (process_loop_lookup _ k' _ _ _ Hloop').
    rewrite (last_named_app k' pre (c1 :: _)), (last_named_app k' pre (mid ++ _)).
    cbn [last_named].
    destruct (last_named k' (mid ++ c2 :: post)) as [c|] eqn:Hk'; [done|].
    rewrite He1. cbn [andb]. case_bool_decide as Hc1; [|done].
    assert (k' = k) as -> by congruence. congruence.
Qed.

Lemma last_record_with_name_wins_witness :
  process_data (VList ([iraq] ++ syria :: [turkey] ++ syria_again :: [island]))
               (quiet_world NoResponse) =
    (Ok [(str "Iraq", obj [("cca2", str "IQ"); ("region", str "Asia");
                           ("borders", VList [str "SY"; str "TR"])]);
         (str "Syria", obj [("cca2", str "SX"); ("region", VNone);
                            ("borders", VList [str "IQ"])]);
         (str "Turkey", obj [("cca2", str "TR"); ("region", str "Asia");
                             ("borders", VList [str "SY"; str "IQ"])]);
         (str "Iceland", obj [("cca2", str "IS"); ("region", str "Unknown");
                              ("borders", VList [])])],
     World [LogProcessing; LogProcessed 4] ∅ (fun _ => NoResponse)) /\
  exists tbl,
    build_cca3_map (VList ([iraq] ++ syria :: [turkey] ++ syria_again :: [island])) = Ok tbl /\
    dict_lookup (KStr "Syria")
      [(str "Iraq", obj [("cca2", str "IQ"); ("region", str "Asia");
                         ("borders", VList [str "SY"; str "TR"])]);
       (str "Syria", obj [("cca2", str "SX"); ("region", VNone);
                          ("borders", VList [str "IQ"])]);
       (str "Turkey", obj [("cca2", str "TR"); ("region", str "Asia");
                           ("borders", VList [str "SY"; str "IQ"])]);
       (str "Iceland", obj [("cca2", str "IS"); ("region", str "Unknown");
                            ("borders", VList [])])] = Some (entry_of tbl syria_again).
Proof.
  split; [reflexivity|].
  destruct (last_record_with_name_wins [iraq] [turkey] [island] syria syria_again
              (KStr "Syria") (quiet_world NoResponse) _ _ eq_refl eq_refl eq_refl
              eq_refl eq_refl eq_refl) as (tbl & Hbuild & Hlookup & _).
  exists tbl. split; [exact Hbuild | exact Hlookup].
Defined.

(** The round of an emitted, digestible record stores its entry. *)
Lemma process_record_emitted (tbl acc : pydict) (c : value) (k : hkey) :
  emitted c = true -> output_record_ok c = true ->
  hash_key (common_name c) = Some k ->
  process_record tbl acc c = Ok (dict_store (common_name c) k (entry_of tbl c) acc).
Proof.
  intros He Hok Hk. rewrite process_record_eq, (emitted_dict _ He), He.
  destruct (output_record_ok_emitted _ Hok He) as (bs & k' & -> & -> & _).
  unfold dict_setitem. by rewrite Hk.
Qed.

(** C9.  An emitted record that has no borders key gets an entry whose
    borders field is present and is the empty list: its round of the
    loop stores such an entry under its name, and so does the output of
    [process_data] when the record is the last one of its name. *)
Theorem missing_borders_give_empty_list (tbl formatted : pydict) (c : value) (k : hkey) :
  emitted c = true ->
  hash_key (common_name c) = Some k ->
  field c "borders" = None ->
  exists e,
    process_record tbl formatted c = Ok (dict_store (common_name c) k e formatted) /\
    dict_lookup k (dict_store (common_name c) k e formatted) = Some e /\
    field e "borders" = Some (VList []) /\
    (forall cs w w' out,
       process_data (VList cs) w = (Ok out, w') ->
       last_named k cs = Some c ->
       exists e', dict_lookup k out = Some e' /\ field e' "borders" = Some (VList [])).
Proof.
  intros He Hk Hb.
  assert (Hentry : forall tbl', field (entry_of tbl' c) "borders" = Some (VList [])).
  { intros tbl'. unfold entry_of, borders_of. by rewrite Hb. }
  assert (Hok : output_record_ok c = true).
  { unfold output_record_ok, borders_of, hashable.
    by rewrite (emitted_dict _ He), He, Hb, Hk. }
  exists (entry_of tbl c). split_and!.
  - by apply process_record_emitted.
  - rewrite (dict_lookup_store k k _ _ _ Hk). by rewrite decide_True.
  - apply Hentry.
  - intros cs w w' out (tbl' & _ & Hloop)%process_data_inv Hlast.
    exists (entry_of tbl' c). split; [|apply Hentry].
    by rewrite (process_loop_lookup _ k _ _ _ Hloop), Hlast.
Qed.

Lemma missing_borders_give_empty_list_witness :
  emitted island = true /\
  hash_key (common_name island) = Some (KStr "Iceland") /\
  field island "borders" = None /\
  exists e,
    process_record [] [] island = Ok (dict_store (common_name island) (KStr "Iceland") e []) /\
    dict_lookup (KStr "Iceland") (dict_store (common_name island) (KStr "Iceland") e []) = Some e /\
    field e "borders" = Some (VList []).
Proof.
  split_and!; [reflexivity ..|].
  destruct (missing_borders_give_empty_list [] [] island (KStr "Iceland")
              eq_refl eq_refl eq_refl) as (e & Hstep & Hget & Hb & _).
  exists e. split_and!; [exact Hstep | exact Hget | exact Hb].
Defined.

(** C10.  The round of an emitted record passes the value under its
    region key into the entry as it is, whatever it is, null and the
    empty string included; the entry gets "Unknown" when, and only when,
    the record has no region key or has that very string under it. *)
Theorem region_default_only_when_absent (tbl formatted : pydict) (c : value) :
  emitted c = true ->
  output_record_ok c = true ->
  exists k e,
    hash_key (common_name c) = Some k /\
    process_record tbl formatted c = Ok (dict_store (common_name c) k e formatted) /\
    dict_lookup k (dict_store (common_name c) k e formatted) = Some e /\
    (forall r, field c "region" = Some r -> field e "region" = Some r) /\
    (field c "region" = None -> field e "region" = Some (str "Unknown")) /\
    (field e "region" = Some (str "Unknown") ->
     field c "region" = None \/ field c "region" = Some (str "Unknown")).
Proof.
  intros He Hok.
  destruct (output_record_ok_emitted _ Hok He) as (bs & k & _ & _ & Hk).
  exists k, (entry_of tbl c). rewrite entry_region. split_and!.
  - done.
  - by apply process_record_emitted.
  - rewrite (dict_lookup_store k k _ _ _ Hk). by rewrite decide_True.
  - by intros r ->%region_of_present.
  - by intros ->%region_of_absent.
  - unfold region_of. destruct (field c "region") as [r|]; [|by left].
    cbn. intros [= ->]. by right.
Qed.

Lemma region_default_only_when_absent_witness :
  emitted syria_again = true /\
  output_record_ok syria_again = true /\
  field syria_again "region" = Some VNone /\
  exists k e,
    hash_key (common_name syria_again) = Some k /\
    process_record [] [] syria_again = Ok (dict_store (common_name syria_again) k e []) /\
    field e "region" = Some VNone.
Proof.
  split_and!; [reflexivity ..|].
  destruct (region_default_only_when_absent [] [] syria_again eq_refl eq_refl)
    as (k & e & Hk & Hstep & _ & Hr & _).
  exists k, e. split_and!; [exact Hk | exact Hstep | by apply Hr].
Defined.

(** C6, as stated, fails: an element of the array that is not an object
    makes both functions raise, and so does a record whose [cca3] is an
    array. *)
Lemma non_object_element_raises :
  build_cca3_map (VList [syria; str "France"]) = Raise AttributeError /\
  fst (process_data (VList [syria; str "France"]) (quiet_world NoResponse)) =
    Raise AttributeError /\
  build_cca3_map (VList [obj [("cca3", VList [str "FRA"]); ("cca2", str "FR")]]) =
    Raise TypeError.
Proof. repeat split. Qed.

(** C6, amended.  [build_cca3_map] and [process_data] never raise on
    a sequence of records of the data model, that is, of objects whose
    fields are absent or of their types.  More precisely
    [build_cca3_map] returns exactly on the sequences whose elements are
    all objects with a hashable [cca3] where it is stored, and
    [process_data] exactly on those whose emitted records have, besides,
    a hashable name and borders that can be iterated and hashed.  A
    record that is an object and lacks a code, or is not emitted, is
    simply skipped. *)
Theorem raises_only_on_indigestible_records (cs : list value) (w : world) :
  (forallb raw_country cs = true ->
   is_ok (build_cca3_map (VList cs)) = true /\
   is_ok (fst (process_data (VList cs) w)) = true) /\
  is_ok (build_cca3_map (VList cs)) = forallb table_record_ok cs /\
  is_ok (fst (process_data (VList cs) w)) =
    forallb table_record_ok cs && forallb output_record_ok cs /\
  (forall pre c post,
     cs = pre ++ c :: post ->
     isinstance_dict c = true -> record_codes c = None ->
     build_cca3_map (VList cs) = build_cca3_map (VList (pre ++ post))) /\
  (forall pre c post tbl acc,
     cs = pre ++ c :: post ->
     isinstance_dict c = true -> emitted c = false ->
     foldM (process_record tbl) acc cs = foldM (process_record tbl) acc (pre ++ post)).
Proof.
  assert (Hbuild : is_ok (build_cca3_map (VList cs)) = forallb table_record_ok cs).
  { rewrite build_cca3_map_list. apply foldM_is_ok. intros; apply code_step_is_ok. }
  assert (Hproc : is_ok (fst (process_data (VList cs) w)) =
                    forallb table_record_ok cs && forallb output_record_ok cs).
  { rewrite process_data_run, <- Hbuild.
    destruct (build_cca3_map (VList cs)) as [tbl|e]; cbn; [|reflexivity].
    rewrite <- (process_loop_is_ok tbl [] cs).
    by destruct (foldM (process_record tbl) [] cs). }
  split_and!; [|done|done| |].
  - intros Hraw. rewrite Hproc, Hbuild.
    assert (forallb table_record_ok cs = true /\ forallb output_record_ok cs = true)
      as [-> ->]; [|done].
    rewrite !forallb_forall. rewrite forallb_forall in Hraw.
    split; intros c Hc; by destruct (raw_country_digestible c (Hraw c Hc)).
  - intros pre c post ->. apply build_cca3_map_skip.
  - intros pre c post tbl acc ->. apply process_loop_skip.
Qed.

Lemma raises_only_on_indigestible_records_witness :
  forallb raw_country [syria; codeless; empty_code; island] = true /\
  is_ok (build_cca3_map (VList [syria; codeless; empty_code; island])) = true /\
  is_ok (fst (process_data (VList [syria; codeless; empty_code; island])
                           (quiet_world NoResponse))) = true /\
  build_cca3_map (VList [syria; codeless; empty_code; island]) =
    build_cca3_map (VList ([syria; codeless] ++ [island])) /\
  foldM (process_record []) [] [syria; codeless; empty_code; island] =
    foldM (process_record []) [] ([syria] ++ [empty_code; island]).
Proof.
  destruct (raises_only_on_indigestible_records
              [syria; codeless; empty_code; island] (quiet_world NoResponse))
    as (H1 & _ & _ & H3 & H4).
  destruct (H1 eq_refl) as [Hb Hp].
  split_and!; [reflexivity | exact Hb | exact Hp | |].
  - exact (H3 [syria; codeless] empty_code [island] eq_refl eq_refl eq_refl).
  - exact (H4 [syria] codeless [empty_code; island] [] [] eq_refl eq_refl eq_refl).
Defined.

(** ** The pipeline *)

Module PipelineFacts.

Lemma M_bind_ok {A B : Type} (m : M A) (f : A -> M B) (w w' : world) (b : B) :
  (m ≫= f) w = (Ok b, w') ->
  exists a w1, m w = (Ok a, w1) /\ f a w1 = (Ok b, w').
Proof.
  unfold mbind, M_bind. destruct (m w) as [[a|e] w1]; [eauto | discriminate].
Qed.

(** [fetch_data] by the outcome of the request. *)
Lemma fetch_data_run (w : world) :
  fetch_data w =
    match remote w API_URL with
    | NoResponse =>
        (Raise TransportError, World (logged w ++ [LogFetching]) (files w) (remote w))
    | Response status body =>
        if is_success status
        then (match body with Some v => Ok v | None => Raise JSONDecodeError end,
              World ((logged w ++ [LogFetching]) ++ [LogFetched]) (files w) (remote w))
        else (Raise HTTPStatusError,
              World (logged w ++ [LogFetching]) (files w) (remote w))
    end.
Proof.
  unfold fetch_data, mbind, M_bind, LOG_info, client_get, raise_for_status, resp_json.
  cbn. destruct (remote w API_URL) as [|status body]; [reflexivity|]. cbn.
  destruct (is_success status); cbn; [|reflexivity].
  by destruct body.
Qed.

Lemma fetch_data_result (w1 w2 : world) :
  remote w1 API_URL = remote w2 API_URL -> fst (fetch_data w1) = fst (fetch_data w2).
Proof.
  intros H. rewrite !fetch_data_run, H.
  destruct (remote w2 API_URL) as [|status body]; [reflexivity|].
  by destruct (is_success status).
Qed.

Lemma process_data_result (countries : value) (w1 w2 : world) :
  fst (process_data countries w1) = fst (process_data countries w2).
Proof.
  rewrite !process_data_run.
  by destruct (tbl ← build_cca3_map countries;
               cs ← py_iter countries;
               foldM (process_record tbl) [] cs).
Qed.

(** A [save_json] that returns leaves the text of the encoder, and
    nothing else, in the file. *)
Lemma save_json_file (json_dump : value -> string * option exn) (p : path)
    (data : pydict) (w w' : world) :
  save_json json_dump p data w = (Ok tt, w') ->
  files w' !! p = Some (File (fst (json_dump (VDict data)))).
Proof.
  unfold save_json, mbind, M_bind, LOG_info, get_files, put_files, lift. cbn.
  destruct (mkdir_parents (parent p) (files w)) as [fs1|e]; [|discriminate]. cbn.
  destruct (open_w p fs1) as [fs2|e]; [|discriminate]. cbn.
  destruct (snd (json_dump (VDict data))) as [e|]; [discriminate|].
  intros [= <-]. cbn. apply lookup_insert_eq.
Qed.

Lemma main_inv (json_dump : value -> string * option exn) (here : path) (w w' : world) :
  main json_dump here w = (Ok tt, w') ->
  exists countries out w1 w2,
    fetch_data w = (Ok countries, w1) /\
    process_data countries w1 = (Ok out, w2) /\
    save_json json_dump (OUTPUT_FILE here) out w2 = (Ok tt, w').
Proof.
  unfold main.
  intros (countries & w1 & Hfetch & (out & w2 & Hproc & Hsave)%M_bind_ok)%M_bind_ok.
  eauto 8.
Qed.

End PipelineFacts.

Import PipelineFacts.

(** C7.  When the API answers with a status that is not a success, the
    run ends in [HTTPStatusError] raised by [fetch_data]: the only thing
    done is the first log record, neither [process_data] nor [save_json]
    has run, and the files, the output file among them, are as they
    were. *)
Theorem http_error_aborts_before_transform (json_dump : value -> string * option exn)
    (here : path) (w : world) (status : Z) (body : option value) :
  remote w API_URL = Response status body ->
  is_success status = false ->
  main json_dump here w =
    (Raise HTTPStatusError, World (logged w ++ [LogFetching]) (files w) (remote w)) /\
  files (snd (main json_dump here w)) = files w /\
  files (snd (main json_dump here w)) !! OUTPUT_FILE here = files w !! OUTPUT_FILE here.
Proof.
  intros Hresp Hstatus.
  assert (Hmain : main json_dump here w =
            (Raise HTTPStatusError, World (logged w ++ [LogFetching]) (files w) (remote w))).
  { unfold main, mbind at 1, M_bind at 1. by rewrite fetch_data_run, Hresp, Hstatus. }
  rewrite Hmain. done.
Qed.

Lemma http_error_aborts_before_transform_witness :
  remote (World [] {[ OUTPUT_FILE ["srv"] := File "old" ]}
                (fun _ => Response 500 None)) API_URL = Response 500 None /\
  is_success 500 = false /\
  main blank_dump ["srv"]
       (World [] {[ OUTPUT_FILE ["srv"] := File "old" ]} (fun _ => Response 500 None)) =
    (Raise HTTPStatusError,
     World [LogFetching] {[ OUTPUT_FILE ["srv"] := File "old" ]}
           (fun _ => Response 500 None)).
Proof.
  split_and!; [reflexivity ..|].
  exact (proj1 (http_error_aborts_before_transform blank_dump ["srv"]
                  (World [] {[ OUTPUT_FILE ["srv"] := File "old" ]}
                         (fun _ => Response 500 None))
                  500 None eq_refl eq_refl)).
Defined.

(** C8.  Two runs that get the same answer from the API compute the same
    data and the same mapping, whatever else differs between their
    worlds, and when both complete they leave the same text in the
    output file: the text the encoder gives for the mapping. *)
Theorem pipeline_is_deterministic (json_dump : value -> string * option exn)
    (here : path) (w1 w2 : world) :
  remote w1 API_URL = remote w2 API_URL ->
  fst (fetch_data w1) = fst (fetch_data w2) /\
  (forall countries,
     fst (process_data countries w1) = fst (process_data countries w2)) /\
  (forall p data w1' w2',
     save_json json_dump p data w1 = (Ok tt, w1') ->
     save_json json_dump p data w2 = (Ok tt, w2') ->
     files w1' !! p = Some (File (fst (json_dump (VDict data)))) /\
     files w2' !! p = files w1' !! p) /\
  (forall w1' w2',
     main json_dump here w1 = (Ok tt, w1') ->
     main json_dump here w2 = (Ok tt, w2') ->
     files w2' !! OUTPUT_FILE here = files w1' !! OUTPUT_FILE here /\
     exists out, fst (process_data (default VNone (match remote w1 API_URL with
                                                   | Response _ body => body
                                                   | NoResponse => None
                                                   end)) w1) = Ok out /\
                 files w1' !! OUTPUT_FILE here =
                   Some (File (fst (json_dump (VDict out))))).
Proof.
  intros Hremote. split_and!.
  - by apply fetch_data_result.
  - intros countries. apply process_data_result.
  - intros p data w1' w2' H1%save_json_file H2%save_json_file. by rewrite H2.
  - intros w1' w2'
      (cs1 & out1 & u1 & v1 & Hf1 & Hp1 & Hs1%save_json_file)%main_inv
      (cs2 & out2 & u2 & v2 & Hf2 & Hp2 & Hs2%save_json_file)%main_inv.
    pose proof (fetch_data_result _ _ Hremote) as Hf. rewrite Hf1, Hf2 in Hf.
    injection Hf as ->.
    pose proof (process_data_result cs2 u1 u2) as Hp. rewrite Hp1, Hp2 in Hp.
    injection Hp as ->.
    split; [by rewrite Hs1, Hs2|].
    exists out2. split; [|done].
    rewrite fetch_data_run in Hf1.
    destruct (remote w1 API_URL) as [|status body]; [discriminate|].
    destruct (is_success status); [|discriminate].
    destruct body as [v|]; [|discriminate]. injection Hf1 as -> _. cbn.
    by rewrite (process_data_result cs2 w1 u1), Hp1.
Qed.

Lemma pipeline_is_deterministic_witness :
  remote fresh_world API_URL = remote used_world API_URL /\
  fst (main blank_dump ["srv"] fresh_world) = Ok tt /\
  fst (main blank_dump ["srv"] used_world) = Ok tt /\
  files (snd (main blank_dump ["srv"] used_world)) !! OUTPUT_FILE ["srv"] =
    files (snd (main blank_dump ["srv"] fresh_world)) !! OUTPUT_FILE ["srv"].
Proof.
  split_and!; [reflexivity | vm_compute; reflexivity | vm_compute; reflexivity |].
  apply (pipeline_is_deterministic blank_dump ["srv"] fresh_world used_world eq_refl);
    vm_compute; reflexivity.
Defined.

(** ** Scenarios of the specification *)

(** An empty array gives an empty mapping, and the run goes on to write
    it. *)
Example empty_input_gives_empty_mapping :
  process_data (VList []) (quiet_world NoResponse) =
    (Ok [], World [LogProcessing; LogProcessed 0] ∅ (fun _ => NoResponse)) /\
  fst (main blank_dump ["srv"] (quiet_world (Response 200 (Some (VList []))))) = Ok tt /\
  files (snd (main blank_dump ["srv"] (quiet_world (Response 200 (Some (VList []))))))
    !! OUTPUT_FILE ["srv"] = Some (File "{}").
Proof. split_and!; [reflexivity | vm_compute; reflexivity ..]. Qed.

(** A record with a [cca3] and no [cca2] is neither in the code table nor
    in the output. *)
Example record_without_cca2_is_left_out :
  build_cca3_map (VList [syria; codeless]) = Ok [(str "SYR", str "SY")] /\
  fst (process_data (VList [syria; codeless]) (quiet_world NoResponse)) =
    Ok [(str "Syria", obj [("cca2", str "SY"); ("region", str "Asia");
                           ("borders", VList [])])].
Proof. split; reflexivity. Qed.

(** A response that is an object and not an array: the loop runs over its
    keys, which are strings, and the first [c.get] raises. *)
Example response_that_is_not_an_array :
  fst (process_data (obj [("status", VInt 404); ("message", str "Not Found")])
                    (quiet_world NoResponse)) = Raise AttributeError.
Proof. reflexivity. Qed.

(** ** Further properties of the transform stage *)

Module TableFacts.

Local Abbreviation code_step :=
  (dict_comprehension_step
     (fun c => py_get c (str "cca3") VNone)
     (fun c => py_get c (str "cca2") VNone)
     (fun c => py_and (py_get c (str "cca3") VNone) (py_get c (str "cca2") VNone))).

Lemma code_step_inv (acc acc' : pydict) (c : value) :
  code_step acc c = Ok acc' ->
  (record_codes c = None /\ acc' = acc) \/
  (exists a b k, record_codes c = Some (a, b) /\ hash_key a = Some k /\
                 acc' = dict_store a k b acc).
Proof.
  rewrite code_step_eq. destruct (isinstance_dict c); [|discriminate].
  destruct (record_codes c) as [[a b]|]; [|intros [= <-]; by left].
  unfold dict_setitem. destruct (hash_key a) as [k|] eqn:Hk; [|discriminate].
  intros [= <-]. right. eauto 6.
Qed.

Lemma record_codes_inv (c a b : value) :
  record_codes c = Some (a, b) ->
  field c "cca3" = Some a /\ field c "cca2" = Some b /\
  truthy a = true /\ truthy b = true.
Proof.
  unfold record_codes, both_nonempty.
  destruct (field c "cca3") as [a'|]; [|discriminate].
  destruct (field c "cca2") as [b'|]; [|discriminate].
  destruct (truthy a') eqn:Ha; [|discriminate].
  destruct (truthy b') eqn:Hb; [|discriminate].
  by intros [= <- <-].
Qed.

(** The keys of the table are keys it had or the [cca3] of records. *)
Lemma code_fold_key (cs : list value) (acc tbl : pydict) (key v : value) :
  foldM code_step acc cs = Ok tbl ->
  (key, v) ∈ tbl ->
  (exists v', (key, v') ∈ acc) \/
  exists c b, c ∈ cs /\ record_codes c = Some (key, b).
Proof.
  revert acc v; induction cs as [|c cs IH]; intros acc v; cbn [foldM].
  - intros [= <-] Hin. left; eauto.
  - intros (acc' & Hstep & Hrest)%bind_ok Hin.
    destruct (IH _ _ Hrest Hin) as [[v' Hacc']|(c' & b' & Hc' & H)].
    2:{ right. exists c', b'. split; [by right | done]. }
    destruct (code_step_inv _ _ _ Hstep) as [[_ ->]|(a & b & k & Hc & Hk & ->)];
      [left; eauto|].
    destruct (dict_store_key _ _ _ _ _ _ Hacc') as [->|?]; [|by left].
    right. exists c, b. split; [left | done].
Qed.

(** The values of the table are values it had or the [cca2] of records,
    each under the [cca3] of its record. *)
Lemma code_fold_value (cs : list value) (acc tbl : pydict) (key v : value) :
  foldM code_step acc cs = Ok tbl ->
  (key, v) ∈ tbl ->
  (key, v) ∈ acc \/
  exists c a, c ∈ cs /\ record_codes c = Some (a, v) /\ hash_key key = hash_key a.
Proof.
  revert acc; induction cs as [|c cs IH]; intros acc; cbn [foldM].
  - intros [= <-] Hin. by left.
  - intros (acc' & Hstep & Hrest)%bind_ok Hin.
    destruct (IH _ Hrest Hin) as [Hacc'|(c' & a' & Hc' & H)].
    2:{ right. exists c', a'. split; [by right | done]. }
    destruct (code_step_inv _ _ _ Hstep) as [[_ ->]|(a & b & k & Hc & Hk & ->)];
      [by left|].
    destruct (dict_store_elem _ _ _ _ _ _ Hk Hacc') as [?|[Hk' ->]]; [by left|].
    right. exists c, a. split_and!; [left | done | congruence].
Qed.

Lemma code_fold_NoDup (cs : list value) (acc tbl : pydict) :
  foldM code_step acc cs = Ok tbl ->
  NoDup (dict_keys acc) -> NoDup (dict_keys tbl).
Proof.
  revert acc; induction cs as [|c cs IH]; intros acc; cbn [foldM].
  - by intros [= <-].
  - intros (acc' & Hstep & Hrest)%bind_ok Hnd. apply (IH _ Hrest).
    destruct (code_step_inv _ _ _ Hstep) as [[_ ->]|(a & b & k & Hc & Hk & ->)];
      [done|].
    by apply dict_store_NoDup.
Qed.

(** A table that was built holds, under each key, the [cca2] of the last
    record with that [cca3]. *)
Lemma build_cca3_map_lookup (cs : list value) (tbl : pydict) (k : hkey) :
  build_cca3_map (VList cs) = Ok tbl -> dict_lookup k tbl = last_code k cs.
Proof.
  intros Hbuild.
  assert (Hok : forallb table_record_ok cs = true).
  { rewrite <- (foldM_is_ok code_step table_record_ok code_step_is_ok cs []).
    rewrite <- build_cca3_map_list. by rewrite Hbuild. }
  rewrite build_cca3_map_list, (code_fold_spec _ _ Hok) in Hbuild.
  injection Hbuild as <-. rewrite (code_scan_lookup _ _ _ Hok).
  by destruct (last_code k cs).
Qed.

Lemma last_code_truthy (k : hkey) (cs : list value) (v : value) :
  last_code k cs = Some v -> truthy v = true.
Proof.
  induction cs as [|c cs IH]; cbn; [discriminate|].
  destruct (last_code k cs) as [v'|]; [by intros [= <-]; apply IH|].
  destruct (record_codes c) as [[a b]|] eqn:Hc; [|discriminate].
  case_bool_decide; [|discriminate]. intros [= <-].
  by destruct (record_codes_inv _ _ _ Hc) as (_ & _ & _ & ?).
Qed.

End TableFacts.

Module OutputFacts.
Import TableFacts.

(** Against a table built from [cs], a border resolves to what the last
    record with that [cca3] has for [cca2]. *)
Lemma translate_last_code (cs : list value) (tbl : pydict) (bs : list value) :
  build_cca3_map (VList cs) = Ok tbl ->
  translate tbl bs = omap (fun b => hash_key b ≫= fun kb => last_code kb cs) bs.
Proof.
  intros Hbuild. unfold translate.
  induction bs as [|b bs IH]; [reflexivity|]. cbn [omap list_omap].
  fold (omap (resolve tbl) bs).
  fold (omap (fun b => hash_key b ≫= fun kb => last_code kb cs) bs).
  rewrite IH. unfold resolve.
  destruct (hash_key b) as [kb|]; cbn; [|reflexivity].
  rewrite (build_cca3_map_lookup _ _ kb Hbuild).
  destruct (last_code kb cs) as [v|] eqn:Hv; cbn; [|reflexivity].
  by rewrite (last_code_truthy _ _ _ Hv).
Qed.

Lemma omap_all_length {A B : Type} (f : A -> option B) (l : list A) :
  (forall x, x ∈ l -> is_Some (f x)) -> length (omap f l) = length l.
Proof.
  induction l as [|x l IH]; intros Hall; [reflexivity|]. cbn.
  destruct (Hall x) as [y Hy]; [left|]. rewrite Hy. cbn. f_equal.
  apply IH. intros x' Hx'. apply Hall. by right.
Qed.

Lemma last_named_exists (k : hkey) (cs : list value) (c : value) :
  c ∈ cs -> emitted c = true -> hash_key (common_name c) = Some k ->
  is_Some (last_named k cs).
Proof.
  induction cs as [|c0 cs IH]; [by intros ?%elem_of_nil|].
  intros Hc He Hk. cbn.
  destruct (last_named k cs) as [c'|] eqn:Hlast; [eauto|].
  apply elem_of_cons in Hc as [<-|Hc].
  - rewrite He, bool_decide_eq_true_2 by done. eauto.
  - destruct (IH Hc He Hk) as [? [=]].
Qed.

Lemma emitted_names_cons (c : value) (cs : list value) :
  emitted_names (c :: cs) =
    if emitted c then hash_key (common_name c) :: emitted_names cs
    else emitted_names cs.
Proof. unfold emitted_names. cbn. by destruct (emitted c). Qed.

(** The keys after the loop: the keys before it, then the new names in
    the order in which they first occur. *)
Lemma process_loop_keys (tbl : pydict) (cs : list value) (acc out : pydict) :
  foldM (process_record tbl) acc cs = Ok out ->
  dict_keys out =
    dict_keys acc ++
    filter (fun k => k ∉ dict_keys acc) (first_occurrences (emitted_names cs)).
Proof.
  revert acc; induction cs as [|c cs IH]; intros acc; cbn [foldM].
  - intros [= <-]. cbn. by rewrite app_nil_r.
  - intros (acc' & Hstep & Hrest)%bind_ok. rewrite (IH _ Hrest).
    rewrite emitted_names_cons.
    destruct (process_record_inv _ _ _ _ Hstep) as [[He ->]|(He & k & Hk & ->)];
      rewrite He; [reflexivity|].
    rewrite (dict_keys_store _ _ _ _ Hk), Hk. cbn [first_occurrences].
    destruct (decide (Some k ∈ dict_keys acc)) as [Hin|Hin].
    + f_equal. rewrite filter_cons_False by (intros ?; done).
      rewrite list_filter_filter. apply list_filter_iff. intros x.
      split; [|tauto]. intros Hx. split; [done | congruence].
    + rewrite filter_cons_True by done. rewrite <- app_assoc. cbn. do 2 f_equal.
      rewrite list_filter_filter. apply list_filter_iff. intros x.
      rewrite elem_of_app, list_elem_of_singleton. split.
      * intros Hx. split; [tauto | intros ->; tauto].
      * intros [Hx Hne] [?|?]; done.
Qed.

Lemma dict_keys_length (d : pydict) : length (dict_keys d) = length d.
Proof. unfold dict_keys. apply length_map. Qed.

End OutputFacts.

Import TableFacts OutputFacts.

(** X1.  A table that [build_cca3_map] returns has every key once, and
    under each key a [cca2] that is not empty: the key is the [cca3] of
    a record of the input, non-empty and hashable, and the value is the
    [cca2] of a record with that [cca3]. *)
Theorem code_table_holds_nonempty_codes (cs : list value) (tbl : pydict)
    (key v : value) :
  build_cca3_map (VList cs) = Ok tbl ->
  (key, v) ∈ tbl ->
  NoDup (dict_keys tbl) /\
  truthy key = true /\ truthy v = true /\ hashable key = true /\
  (exists c, c ∈ cs /\ field c "cca3" = Some key) /\
  (exists c a, c ∈ cs /\ field c "cca3" = Some a /\ field c "cca2" = Some v /\
               hash_key key = hash_key a).
Proof.
  intros Hbuild Hin. pose proof Hbuild as Hfold. rewrite build_cca3_map_list in Hfold.
  assert (Hok : forallb table_record_ok cs = true).
  { rewrite <- (foldM_is_ok _ table_record_ok code_step_is_ok cs []). by rewrite Hfold. }
  destruct (code_fold_key _ _ _ _ _ Hfold Hin)
    as [[v' []%elem_of_nil]|(c0 & b0 & Hc0 & Hcodes0)].
  destruct (code_fold_value _ _ _ _ _ Hfold Hin)
    as [[]%elem_of_nil|(c & a & Hc & Hcodes & Hk)].
  destruct (record_codes_inv _ _ _ Hcodes0) as (Hf0 & _ & Hkey & _).
  destruct (record_codes_inv _ _ _ Hcodes) as (Hfa & Hfv & _ & Hv).
  split_and!; [|done|done| |by exists c0|by exists c, a].
  - apply (code_fold_NoDup _ _ _ Hfold). apply NoDup_nil_2.
  - rewrite forallb_forall in Hok. specialize (Hok c0).
    unfold table_record_ok in Hok. rewrite Hcodes0 in Hok.
    apply andb_prop in Hok as [_ ?]; [done | by apply list_elem_of_In].
Qed.

Lemma code_table_holds_nonempty_codes_witness :
  build_cca3_map (VList [syria; codeless; iraq; empty_code]) =
    Ok [(str "SYR", str "SY"); (str "IRQ", str "IQ")] /\
  truthy (str "IQ") = true /\
  exists c, c ∈ [syria; codeless; iraq; empty_code] /\ field c "cca3" = Some (str "IRQ").
Proof.
  split; [reflexivity|].
  destruct (code_table_holds_nonempty_codes [syria; codeless; iraq; empty_code]
              [(str "SYR", str "SY"); (str "IRQ", str "IQ")] (str "IRQ") (str "IQ")
              eq_refl) as (_ & _ & Hv & _ & Hc & _).
  - right; left.
  - split; [exact Hv | exact Hc].
Defined.

(** X2.  The table and the loop together: the borders of the entry the
    output holds for a record are the borders of the record, each
    replaced by the [cca2] of the last record of the whole input that
    has it for [cca3] with both codes non-empty, and left out when there
    is no such record.  When every border has such a record, none is
    lost. *)
Theorem borders_resolve_against_input (cs : list value) (w w' : world)
    (out : pydict) (k : hkey) (c : value) :
  process_data (VList cs) w = (Ok out, w') ->
  last_named k cs = Some c ->
  exists bs e,
    py_iter (borders_of c) = Ok bs /\
    dict_lookup k out = Some e /\
    field e "borders" =
      Some (VList (omap (fun b => hash_key b ≫= fun kb => last_code kb cs) bs)) /\
    ((forall b, b ∈ bs ->
        exists kb, hash_key b = Some kb /\ is_Some (last_code kb cs)) ->
     length (omap (fun b => hash_key b ≫= fun kb => last_code kb cs) bs) = length bs).
Proof.
  intros (tbl & Hbuild & Hloop)%process_data_inv Hlast.
  destruct (last_named_elem _ _ _ Hlast) as (Hc & He & Hk).
  pose proof (process_loop_record_ok _ _ _ _ _ Hloop Hc) as Hok.
  destruct (output_record_ok_emitted _ Hok He) as (bs & k' & Hbs & _ & _).
  exists bs, (entry_of tbl c). split_and!.
  - done.
  - by rewrite (process_loop_lookup _ k _ _ _ Hloop), Hlast.
  - unfold entry_of, elements. rewrite Hbs. cbn.
    by rewrite (translate_last_code _ _ _ Hbuild).
  - intros Hall. apply omap_all_length. intros b Hb.
    destruct (Hall b Hb) as (kb & -> & Hsome). exact Hsome.
Qed.

Lemma borders_resolve_against_input_witness :
  last_named (KStr "Syria") [syria; iraq; turkey] = Some syria /\
  exists out w' e,
    process_data (VList [syria; iraq; turkey]) (quiet_world NoResponse) = (Ok out, w') /\
    dict_lookup (KStr "Syria") out = Some e /\
    field e "borders" = Some (VList [str "IQ"; str "TR"]).
Proof.
  split; [reflexivity|].
  destruct (borders_resolve_against_input [syria; iraq; turkey] (quiet_world NoResponse)
              _ _ (KStr "Syria") syria eq_refl eq_refl)
    as (bs & e & Hbs & Hout & Hb & _).
  injection Hbs as <-.
  eexists _, _, e. split_and!; [reflexivity | exact Hout | exact Hb].
Defined.

Lemma first_occurrences_length (l : list (option hkey)) :
  (length (first_occurrences l) <= length l)%nat.
Proof.
  induction l as [|x l IH]; [done|]. cbn.
  pose proof (length_filter (fun y => y <> x) (first_occurrences l)). lia.
Qed.

Lemma emitted_names_length (cs : list value) :
  (length (emitted_names cs) <= length cs)%nat.
Proof.
  unfold emitted_names. rewrite length_map. apply List.filter_length_le.
Qed.

Lemma filter_not_in_nil (l : list (option hkey)) :
  filter (fun k => k ∉ @nil (option hkey)) l = l.
Proof.
  induction l as [|x l IH]; [done|].
  rewrite filter_cons_True by apply not_elem_of_nil. by rewrite IH.
Qed.

(** X3.  No emitted record is lost: the name of every record of the
    input that has a name and a [cca2] is bound in the output, to the
    entry of the last record emitted under that name. *)
Theorem emitted_record_is_in_output (cs : list value) (w w' : world)
    (out : pydict) (c : value) :
  process_data (VList cs) w = (Ok out, w') ->
  c ∈ cs ->
  emitted c = true ->
  exists k c' e,
    hash_key (common_name c) = Some k /\
    last_named k cs = Some c' /\
    dict_lookup k out = Some e /\
    field e "cca2" = Some (cca2_of c') /\
    field e "region" = Some (region_of c').
Proof.
  intros (tbl & Hbuild & Hloop)%process_data_inv Hc He.
  pose proof (process_loop_record_ok _ _ _ _ _ Hloop Hc) as Hok.
  destruct (output_record_ok_emitted _ Hok He) as (bs & k & _ & _ & Hk).
  destruct (last_named_exists k cs c Hc He Hk) as [c' Hlast].
  exists k, c', (entry_of tbl c'). split_and!; [done | done | | done | done].
  by rewrite (process_loop_lookup _ k _ _ _ Hloop), Hlast.
Qed.

Lemma emitted_record_is_in_output_witness :
  exists out w' e,
    process_data (VList [syria; codeless; syria_again]) (quiet_world NoResponse) =
      (Ok out, w') /\
    syria ∈ [syria; codeless; syria_again] /\
    emitted syria = true /\
    dict_lookup (KStr "Syria") out = Some e /\
    field e "cca2" = Some (str "SX").
Proof.
  destruct (emitted_record_is_in_output [syria; codeless; syria_again]
              (quiet_world NoResponse) _ _ syria eq_refl (list_elem_of_here _ _) eq_refl)
    as (k & c' & e & Hk & Hlast & Hout & Hcca2 & _).
  injection Hk as <-. injection Hlast as <-.
  eexists _, _, e. split_and!; [reflexivity | left | reflexivity | exact Hout | exact Hcca2].
Defined.

(** X4.  The names of the output stand in the order in which they first
    occur among the emitted records, each once, and the number that
    [process_data] logs is the number of these names: at most the number
    of records, and less when a name occurs again. *)
Theorem output_order_is_first_occurrence (cs : list value) (w w' : world)
    (out : pydict) :
  process_data (VList cs) w = (Ok out, w') ->
  dict_keys out = first_occurrences (emitted_names cs) /\
  logged w' =
    logged w ++ [LogProcessing;
                 LogProcessed (length (first_occurrences (emitted_names cs)))] /\
  (length out <= length cs)%nat.
Proof.
  intros Hrun. pose proof Hrun as (tbl & Hbuild & Hloop)%process_data_inv.
  assert (Hkeys : dict_keys out = first_occurrences (emitted_names cs)).
  { rewrite (process_loop_keys _ _ _ _ Hloop). cbn. apply filter_not_in_nil. }
  assert (Hlen : length out = length (first_occurrences (emitted_names cs))).
  { by rewrite <- Hkeys, dict_keys_length. }
  split_and!.
  - done.
  - rewrite process_data_run, Hbuild in Hrun. cbn in Hrun. rewrite Hloop in Hrun.
    injection Hrun as <-. cbn. by rewrite Hlen.
  - rewrite Hlen. pose proof (first_occurrences_length (emitted_names cs)).
    pose proof (emitted_names_length cs). lia.
Qed.

Lemma output_order_is_first_occurrence_witness :
  exists out w',
    process_data (VList [sudan; egypt; codeless; sudan_again]) (quiet_world NoResponse) =
      (Ok out, w') /\
    dict_keys out = [Some (KStr "Sudan"); Some (KStr "Egypt")] /\
    logged w' = [LogProcessing; LogProcessed 2].
Proof.
  eexists _, _. split; [reflexivity|].
  destruct (output_order_is_first_occurrence [sudan; egypt; codeless; sudan_again]
              (quiet_world NoResponse) _ _ eq_refl) as (Hkeys & Hlog & _).
  split; [exact Hkeys | exact Hlog].
Defined.

(** X5.  Every value of the output is an object with exactly the keys
    ["cca2"], ["region"] and ["borders"], in this order, and its borders
    are an array, also when the record had a string or an object for
    borders or none at all. *)
Theorem output_entries_have_three_fields (cs : list value) (w w' : world)
    (out : pydict) (key e : value) :
  process_data (VList cs) w = (Ok out, w') ->
  (key, e) ∈ out ->
  hashable key = true /\
  exists cca2 region borders,
    e = VDict [(str "cca2", cca2); (str "region", region);
               (str "borders", VList borders)].
Proof.
  intros (tbl & Hbuild & Hloop)%process_data_inv Hin.
  destruct (process_loop_elem _ _ _ _ _ _ Hloop Hin)
    as [[]%elem_of_nil|(c & Hc & He & Hk & Hh & ->)].
  split; [done|]. unfold entry_of. eauto.
Qed.

Lemma output_entries_have_three_fields_witness :
  exists out w',
    process_data (VList [island]) (quiet_world NoResponse) = (Ok out, w') /\
    (str "Iceland", obj [("cca2", str "IS"); ("region", str "Unknown");
                         ("borders", VList [])]) ∈ out /\
    hashable (str "Iceland") = true.
Proof.
  eexists _, _. split; [reflexivity|]. split; [left|].
  destruct (output_entries_have_three_fields [island] (quiet_world NoResponse) _ _
              (str "Iceland")
              (obj [("cca2", str "IS"); ("region", str "Unknown"); ("borders", VList [])])
              eq_refl (list_elem_of_here _ _)) as [Hh _].
  exact Hh.
Defined.

(** X6.  What [process_data] does with a response that is not an array.
    [None], a boolean and a number cannot be iterated: [TypeError].  A
    string is iterated by character and an object by key, and a
    character or a key has no [get]: [AttributeError].  The empty string
    and the empty object give the empty mapping, as the empty array
    does. *)
Theorem response_that_is_no_array (v : value) (w : world) :
  match v with
  | VList _ => False
  | VDict d => Forall (fun kv => is_str (fst kv) = true) d
  | _ => True
  end ->
  fst (process_data v w) =
    match v with
    | VStr EmptyString | VDict [] => Ok []
    | VStr _ | VDict _ => Raise AttributeError
    | _ => Raise TypeError
    end.
Proof.
  intros Hv. rewrite process_data_run.
  destruct v as [| | | |s|l|d]; try reflexivity.
  - by destruct s.
  - done.
  - destruct d as [|[k x] d]; [reflexivity|].
    apply Forall_cons in Hv as [Hk _]. cbn in Hk. by destruct k.
Qed.

Lemma response_that_is_no_array_witness :
  Forall (fun kv : value * value => is_str (fst kv) = true)
         [(str "status", VInt 404); (str "message", str "Not Found")] /\
  fst (process_data (obj [("status", VInt 404); ("message", str "Not Found")])
                    (quiet_world NoResponse)) = Raise AttributeError.
Proof.
  split; [repeat constructor|].
  apply (response_that_is_no_array
           (obj [("status", VInt 404); ("message", str "Not Found")])).
  repeat constructor.
Defined.

(** ** Further properties of the fetch and persist stages *)

Module FileFacts.

(** [path] is [list string]; lookups are told apart by which of the two
    names their key type carries, so proofs settle on one. *)
Local Ltac same_paths := unfold path in *.

Lemma os_mkdir_inv (p : path) (fs fs' : gmap path node) :
  os_mkdir p fs = Ok fs' ->
  p <> [] /\ is_dir (parent p) fs = true /\ fs !! p = None /\ fs' = <[p := Dir]> fs.
Proof.
  unfold os_mkdir. destruct p as [|x par]; [discriminate|]. cbn [parent tail].
  repeat case_match; intros [= <-]. done.
Qed.

Lemma only_dirs_added_refl (p : path) (fs : gmap path node) : only_dirs_added p fs fs.
Proof. intros q. by left. Qed.

Lemma only_dirs_added_insert (p : path) (fs : gmap path node) :
  fs !! p = None -> only_dirs_added p fs (<[p := Dir]> fs).
Proof.
  intros Hp q. destruct (decide (q = p)) as [->|Hne].
  - right. by rewrite lookup_insert_eq.
  - left. by rewrite lookup_insert_ne.
Qed.

Lemma only_dirs_added_trans (x : string) (par : path) (fs fs1 fs2 : gmap path node) :
  only_dirs_added par fs fs1 -> only_dirs_added (x :: par) fs1 fs2 ->
  only_dirs_added (x :: par) fs fs2.
Proof.
  intros H1 H2 q. destruct (H1 q) as [E1|(N1 & D1 & S1)], (H2 q) as [E2|(N2 & D2 & S2)].
  - left. congruence.
  - right. split_and!; [congruence | done | done].
  - right. split_and!; [done | congruence | by apply suffix_cons_r].
  - congruence.
Qed.

Lemma is_dir_preserved (p q : path) (fs fs' : gmap path node) :
  only_dirs_added p fs fs' -> is_dir q fs = true -> is_dir q fs' = true.
Proof.
  intros Hadd. unfold is_dir. destruct q as [|y q]; [done|].
  destruct (Hadd (y :: q)) as [->|(-> & _ & _)]; [done | discriminate].
Qed.

Lemma mkdir_exist_ok_inv (p : path) (fs fs' : gmap path node) :
  mkdir_exist_ok p fs = Ok fs' ->
  (fs' = fs /\ is_dir p fs = true) \/ os_mkdir p fs = Ok fs'.
Proof.
  unfold mkdir_exist_ok. destruct (os_mkdir p fs) as [fs1|e]; [by right|].
  destruct e; try discriminate;
    (destruct (is_dir p fs) eqn:Hd; [intros [= <-]; by left | discriminate]).
Qed.

(** One step of [mkdir_parents]. *)
Lemma mkdir_parents_inv (p : path) (fs fs' : gmap path node) :
  mkdir_parents p fs = Ok fs' ->
  os_mkdir p fs = Ok fs' \/
  (fs' = fs /\ is_dir p fs = true) \/
  (exists x par fs1, p = x :: par /\ os_mkdir p fs = Raise FileNotFoundError /\
                     mkdir_parents par fs = Ok fs1 /\ mkdir_exist_ok p fs1 = Ok fs').
Proof.
  destruct p as [|x par]; cbn [mkdir_parents].
  - cbn. intros [= <-]. right; left. done.
  - destruct (os_mkdir (x :: par) fs) as [fs1|e] eqn:Hmk; [by left|].
    destruct e; try (destruct (is_dir (x :: par) fs) eqn:Hd;
                     [intros [= <-]; right; left; done | discriminate]).
    destruct (mkdir_parents par fs) as [fs1|e] eqn:Hpar; [|discriminate].
    cbn. intros Hlast. right; right. eauto 8.
Qed.

(** What [mkdir_parents] leaves behind when it returns. *)
Lemma mkdir_parents_post (p : path) (fs fs' : gmap path node) :
  mkdir_parents p fs = Ok fs' ->
  is_dir p fs' = true /\ only_dirs_added p fs fs'.
Proof.
  revert fs fs'; induction p as [|x par IH]; intros fs fs' Hrun.
  - cbn in Hrun. injection Hrun as <-. split; [done | apply only_dirs_added_refl].
  - destruct (mkdir_parents_inv _ _ _ Hrun)
      as [Hmk|[[-> Hd]|(x' & par' & fs1 & [= <- <-] & _ & Hpar & Hlast)]].
    + destruct (os_mkdir_inv _ _ _ Hmk) as (_ & _ & Hnone & ->). split.
      * cbn. by rewrite lookup_insert_eq.
      * by apply only_dirs_added_insert.
    + split; [done | apply only_dirs_added_refl].
    + destruct (IH _ _ Hpar) as [Hd1 Hadd1].
      destruct (mkdir_exist_ok_inv _ _ _ Hlast) as [[-> Hd]|Hmk].
      * split; [done|]. eapply only_dirs_added_trans; [done | apply only_dirs_added_refl].
      * destruct (os_mkdir_inv _ _ _ Hmk) as (_ & _ & Hnone & ->). split.
        -- cbn. by rewrite lookup_insert_eq.
        -- eapply only_dirs_added_trans; [done | by apply only_dirs_added_insert].
Qed.

Lemma tree_shaped_mkdir (p : path) (fs : gmap path node) :
  tree_shaped fs -> p <> [] -> is_dir (parent p) fs = true -> fs !! p = None ->
  tree_shaped (<[p := Dir]> fs).
Proof.
  intros [Hroot Htree] Hp Hpar Hnone. split.
  - by rewrite lookup_insert_ne.
  - intros q n Hq.
    apply (is_dir_preserved p _ fs); [by apply only_dirs_added_insert|].
    destruct (decide (q = p)) as [->|Hne]; [done|].
    rewrite lookup_insert_ne in Hq by done. by apply (Htree q n).
Qed.

(** In a tree nothing above a directory is a file. *)
Lemma is_dir_no_file_on (p : path) (fs : gmap path node) :
  tree_shaped fs -> is_dir p fs = true -> no_file_on p fs.
Proof.
  intros [Hroot Htree]. induction p as [|x par IH]; intros Hd q t Hq.
  - apply suffix_nil_inv in Hq as ->. by rewrite Hroot.
  - cbn in Hd. destruct (fs !! (x :: par : path)) as [[|t']|] eqn:Hp; try discriminate.
    destruct (decide (q = x :: par)) as [->|Hne]; [by rewrite Hp|].
    apply (IH (Htree _ _ Hp)).
    destruct Hq as [k Hk]. destruct k as [|y k]; [by subst|].
    injection Hk as -> ->. by exists k.
Qed.

Lemma no_file_on_parent (x : string) (par : path) (fs : gmap path node) :
  no_file_on (x :: par) fs -> no_file_on par fs.
Proof. intros H q t Hq. apply H. by apply suffix_cons_r. Qed.

Lemma not_is_dir_inv (p : path) (fs : gmap path node) :
  is_dir p fs = false -> no_file_on p fs -> p <> [] /\ fs !! p = None.
Proof.
  intros Hd Hno. destruct p as [|x par]; [discriminate|]. split; [done|].
  cbn in Hd. case_match eqn:Hp; [|done]. case_match; [done|]. subst.
  by destruct (Hno _ _ (reflexivity _) Hp).
Qed.

(** [mkdir_parents] on an existing directory of a tree changes nothing. *)
Lemma mkdir_parents_existing (p : path) (fs : gmap path node) :
  tree_shaped fs -> is_dir p fs = true -> mkdir_parents p fs = Ok fs.
Proof.
  intros [Hroot Htree] Hd. destruct p as [|x par]; [reflexivity|].
  cbn in Hd. case_match eqn:Hp; [|discriminate]. case_match; [|discriminate]. subst.
  pose proof (Htree _ _ Hp) as Hpar. cbn [parent tail] in Hpar.
  cbn [mkdir_parents]. unfold os_mkdir, is_dir in *. same_paths.
  by rewrite Hpar, Hp.
Qed.

(** In a tree with no file in the way [mkdir_parents] returns, and what
    it returns is a tree. *)
Lemma mkdir_parents_total (p : path) (fs : gmap path node) :
  tree_shaped fs -> no_file_on p fs ->
  exists fs', mkdir_parents p fs = Ok fs' /\ tree_shaped fs'.
Proof.
  revert fs; induction p as [|x par IH]; intros fs Htree Hno.
  - exists fs. split; [reflexivity | done].
  - destruct (is_dir (x :: par) fs) eqn:Hd.
    { exists fs. split; [by apply mkdir_parents_existing | done]. }
    destruct (not_is_dir_inv _ _ Hd Hno) as [_ Hp].
    destruct (is_dir par fs) eqn:Hpar.
    + exists (<[(x :: par : path) := Dir]> fs). split.
      * cbn [mkdir_parents]. unfold os_mkdir. same_paths. by rewrite Hpar, Hp.
      * by apply tree_shaped_mkdir.
    + destruct (not_is_dir_inv _ _ Hpar (no_file_on_parent _ _ _ Hno)) as [_ Hnone].
      destruct (IH fs Htree (no_file_on_parent _ _ _ Hno)) as (fs1 & Hrun1 & Htree1).
      destruct (mkdir_parents_post _ _ _ Hrun1) as [Hd1 Hadd1].
      assert (Hp1 : fs1 !! (x :: par : path) = None).
      { destruct (Hadd1 (x :: par)) as [->|(_ & _ & Hsuf)]; [done|].
        by apply suffix_cons_not in Hsuf. }
      exists (<[(x :: par : path) := Dir]> fs1). split.
      * cbn [mkdir_parents]. unfold os_mkdir at 1. same_paths.
        rewrite Hpar, Hnone, Hrun1.
        cbn. unfold mkdir_exist_ok, os_mkdir. same_paths. by rewrite Hd1, Hp1.
      * by apply tree_shaped_mkdir.
Qed.

(** In a tree [mkdir_parents] returns only when no file is in the way. *)
Lemma mkdir_parents_no_file (p : path) (fs fs' : gmap path node) :
  tree_shaped fs -> mkdir_parents p fs = Ok fs' -> no_file_on p fs.
Proof.
  intros Htree. revert fs'; induction p as [|x par IH]; intros fs' Hrun.
  - by apply is_dir_no_file_on.
  - destruct (mkdir_parents_inv _ _ _ Hrun)
      as [Hmk|[[-> Hd]|(x' & par' & fs1 & [= <- <-] & Hmk & Hpar & _)]].
    + destruct (os_mkdir_inv _ _ _ Hmk) as (_ & Hpar & Hnone & _).
      intros q t Hq. destruct (decide (q = x :: par)) as [->|Hne]; [by rewrite Hnone|].
      apply (is_dir_no_file_on _ _ Htree Hpar).
      destruct Hq as [k Hk]. destruct k as [|y k]; [by subst|].
      injection Hk as -> ->. by exists k.
    + by apply is_dir_no_file_on.
    + pose proof (IH _ Hpar) as Hno.
      intros q t Hq. destruct (decide (q = x :: par)) as [->|Hne].
      * intros Hp. destruct Htree as [_ Htree]. pose proof (Htree _ _ Hp) as Hd.
        cbn [parent tail] in Hd. unfold os_mkdir in Hmk. same_paths.
        rewrite Hd, Hp in Hmk. discriminate.
      * apply Hno. destruct Hq as [k Hk]. destruct k as [|y k]; [by subst|].
        injection Hk as -> ->. by exists k.
Qed.

(** [save_json] by what its steps give. *)
Lemma save_json_run (json_dump : value -> string * option exn) (p : path)
    (data : pydict) (w : world) :
  save_json json_dump p data w =
    match mkdir_parents (parent p) (files w) with
    | Raise e => (Raise e, World (logged w ++ [LogSaving p]) (files w) (remote w))
    | Ok fs1 =>
        match open_w p fs1 with
        | Raise e => (Raise e, World (logged w ++ [LogSaving p]) fs1 (remote w))
        | Ok fs2 =>
            match snd (json_dump (VDict data)) with
            | Some e =>
                (Raise e,
                 World (logged w ++ [LogSaving p])
                       (<[p := File (fst (json_dump (VDict data)))]> fs2) (remote w))
            | None =>
                (Ok tt,
                 World ((logged w ++ [LogSaving p]) ++ [LogSaved])
                       (<[p := File (fst (json_dump (VDict data)))]> fs2) (remote w))
            end
        end
    end.
Proof.
  unfold save_json, mbind, M_bind, LOG_info, get_files, put_files, lift. cbn.
  destruct (mkdir_parents (parent p) (files w)) as [fs1|e]; [|reflexivity]. cbn.
  destruct (open_w p fs1) as [fs2|e]; [|reflexivity]. cbn.
  by destruct (snd (json_dump (VDict data))).
Qed.

Lemma open_w_inv (p : path) (fs fs' : gmap path node) :
  open_w p fs = Ok fs' ->
  is_dir p fs = false /\ is_dir (parent p) fs = true /\ fs' = <[p := File ""]> fs.
Proof.
  unfold open_w. destruct (is_dir p fs); [discriminate|].
  destruct (is_dir (parent p) fs); [by intros [= <-]|].
  repeat case_match; discriminate.
Qed.

(** Writing a file into a directory of a tree, where no directory is,
    leaves a tree. *)
Lemma tree_shaped_write (p : path) (text : string) (fs : gmap path node) :
  tree_shaped fs -> is_dir p fs = false -> is_dir (parent p) fs = true ->
  tree_shaped (<[p := File text]> fs).
Proof.
  intros [Hroot Htree] Hd Hpar.
  assert (Hp : p <> []) by (intros ->; discriminate).
  assert (Hkeep : forall q : path, is_dir q fs = true ->
                    is_dir q (<[p := File text]> fs) = true).
  { intros q Hq. destruct (decide (q = p)) as [->|Hne]; [congruence|].
    unfold is_dir in *. destruct q as [|y q]; [done|]. by rewrite lookup_insert_ne. }
  split; [by rewrite lookup_insert_ne|].
  intros q n Hq. apply Hkeep.
  destruct (decide (q = p)) as [->|Hne]; [done|].
  rewrite lookup_insert_ne in Hq by done. by apply (Htree q n).
Qed.

Lemma is_dir_unchanged_below (p : path) (fs fs1 : gmap path node) :
  p <> [] -> only_dirs_added (parent p) fs fs1 -> is_dir p fs1 = is_dir p fs.
Proof.
  intros Hp Hadd. destruct p as [|x par]; [done|]. unfold is_dir.
  destruct (Hadd (x :: par)) as [->|(_ & _ & Hsuf)]; [done|].
  by apply suffix_cons_not in Hsuf.
Qed.

(** [save_json] where its directories can be made and its file opened. *)
Lemma save_json_ok (json_dump : value -> string * option exn) (p : path)
    (data : pydict) (w : world) :
  tree_shaped (files w) ->
  no_file_on (parent p) (files w) ->
  is_dir p (files w) = false ->
  exists fs1,
    mkdir_parents (parent p) (files w) = Ok fs1 /\
    tree_shaped fs1 /\ is_dir (parent p) fs1 = true /\ is_dir p fs1 = false /\
    only_dirs_added (parent p) (files w) fs1 /\
    save_json json_dump p data w =
      match snd (json_dump (VDict data)) with
      | Some e =>
          (Raise e,
           World (logged w ++ [LogSaving p])
                 (<[p := File (fst (json_dump (VDict data)))]> fs1) (remote w))
      | None =>
          (Ok tt,
           World ((logged w ++ [LogSaving p]) ++ [LogSaved])
                 (<[p := File (fst (json_dump (VDict data)))]> fs1) (remote w))
      end.
Proof.
  intros Htree Hno Hd.
  assert (Hp : p <> []) by (intros ->; discriminate).
  destruct (mkdir_parents_total _ _ Htree Hno) as (fs1 & Hrun & Htree1).
  destruct (mkdir_parents_post _ _ _ Hrun) as [Hd1 Hadd].
  assert (Hd' : is_dir p fs1 = false) by (by rewrite (is_dir_unchanged_below p _ _ Hp Hadd)).
  exists fs1. split_and!; try done.
  rewrite save_json_run, Hrun. unfold open_w. rewrite Hd', Hd1.
  rewrite insert_insert_eq. by destruct (snd (json_dump (VDict data))).
Qed.

Lemma fetch_data_frame (w : world) :
  files (snd (fetch_data w)) = files w /\ remote (snd (fetch_data w)) = remote w.
Proof.
  rewrite fetch_data_run. destruct (remote w API_URL) as [|status body]; [done|].
  by destruct (is_success status).
Qed.

Lemma process_data_frame (countries : value) (w : world) :
  files (snd (process_data countries w)) = files w /\
  remote (snd (process_data countries w)) = remote w.
Proof.
  rewrite process_data_run.
  by destruct (tbl ← build_cca3_map countries;
               cs ← py_iter countries;
               foldM (process_record tbl) [] cs).
Qed.

Lemma save_json_remote (json_dump : value -> string * option exn) (p : path)
    (data : pydict) (w : world) :
  remote (snd (save_json json_dump p data w)) = remote w.
Proof.
  rewrite save_json_run. repeat case_match; done.
Qed.

(** [main] by what its stages give. *)
Lemma main_run (json_dump : value -> string * option exn) (here : path) (w : world) :
  main json_dump here w =
    match fetch_data w with
    | (Raise e, w1) => (Raise e, w1)
    | (Ok countries, w1) =>
        match process_data countries w1 with
        | (Raise e, w2) => (Raise e, w2)
        | (Ok processed, w2) => save_json json_dump (OUTPUT_FILE here) processed w2
        end
    end.
Proof.
  unfold main, mbind, M_bind. destruct (fetch_data w) as [[countries|e] w1]; [|done].
  by destruct (process_data countries w1) as [[processed|e] w2].
Qed.

End FileFacts.

Import FileFacts.

(** X7.  [fetch_data] returns data exactly when the API answers with a
    2xx status and a body that is JSON, and then it returns that body.
    A 2xx answer whose body is not JSON is logged as fetched and then
    raises [JSONDecodeError].  Whatever the answer, no file is touched. *)
Theorem fetch_data_returns_body_of_success (w : world) (v : value) :
  (fst (fetch_data w) = Ok v <->
   exists status, remote w API_URL = Response status (Some v) /\
                  is_success status = true) /\
  (forall status,
     remote w API_URL = Response status None -> is_success status = true ->
     fetch_data w =
       (Raise JSONDecodeError,
        World (logged w ++ [LogFetching; LogFetched]) (files w) (remote w))) /\
  (remote w API_URL = NoResponse -> fst (fetch_data w) = Raise TransportError) /\
  files (snd (fetch_data w)) = files w.
Proof.
  split_and!.
  - rewrite fetch_data_run. destruct (remote w API_URL) as [|status body]; cbn.
    + split; [discriminate | intros (? & [=] & _)].
    + destruct (is_success status) eqn:Hs; cbn.
      * destruct body as [v'|]; split.
        -- intros [= ->]. eauto.
        -- by intros (? & [= <- <-] & _).
        -- discriminate.
        -- intros (? & [=] & _).
      * split; [discriminate | intros (? & [= <- _] & ?); congruence].
  - intros status Hr Hs. rewrite fetch_data_run, Hr, Hs. by rewrite <- app_assoc.
  - intros Hr. by rewrite fetch_data_run, Hr.
  - apply fetch_data_frame.
Qed.

Lemma fetch_data_returns_body_of_success_witness :
  fst (fetch_data (quiet_world (Response 200 (Some (VList [syria]))))) = Ok (VList [syria]) /\
  fetch_data (quiet_world (Response 200 None)) =
    (Raise JSONDecodeError,
     World [LogFetching; LogFetched] ∅ (fun _ => Response 200 None)).
Proof.
  split.
  - apply (fetch_data_returns_body_of_success
             (quiet_world (Response 200 (Some (VList [syria]))))). by exists 200.
  - exact (proj1 (proj2 (fetch_data_returns_body_of_success
                           (quiet_world (Response 200 None)) VNone))
                 200 eq_refl eq_refl).
Defined.

(** X8.  On a file system that is a tree [save_json] returns exactly
    when no file stands where a directory above the path is needed, the
    path itself is no directory, and the encoder does not raise. *)
Theorem save_json_returns_exactly_when_unobstructed
    (json_dump : value -> string * option exn) (p : path) (data : pydict) (w : world) :
  tree_shaped (files w) ->
  (is_ok (fst (save_json json_dump p data w)) = true <->
   no_file_on (parent p) (files w) /\ is_dir p (files w) = false /\
   snd (json_dump (VDict data)) = None).
Proof.
  intros Htree. split.
  - rewrite save_json_run.
    destruct (mkdir_parents (parent p) (files w)) as [fs1|e] eqn:Hmk; [|discriminate].
    destruct (open_w p fs1) as [fs2|e] eqn:Hopen; [|discriminate].
    destruct (snd (json_dump (VDict data))) as [e|]; [discriminate|]. intros _.
    destruct (open_w_inv _ _ _ Hopen) as (Hd1 & _ & _).
    destruct (mkdir_parents_post _ _ _ Hmk) as [_ Hadd].
    split_and!; [by apply (mkdir_parents_no_file _ _ fs1) | | done].
    destruct (is_dir p (files w)) eqn:Hd; [|done].
    by rewrite (is_dir_preserved _ _ _ _ Hadd Hd) in Hd1.
  - intros (Hno & Hd & Henc).
    destruct (save_json_ok json_dump p data w Htree Hno Hd) as (fs1 & _ & _ & _ & _ & _ & ->).
    by rewrite Henc.
Qed.

Lemma save_json_returns_exactly_when_unobstructed_witness :
  tree_shaped script_dir_only /\
  is_ok (fst (save_json blank_dump (OUTPUT_FILE ["srv"]) []
                        (World [] script_dir_only (fun _ => NoResponse)))) = true /\
  no_file_on (parent (OUTPUT_FILE ["srv"])) script_dir_only.
Proof.
  assert (Htree : tree_shaped script_dir_only).
  { split; [reflexivity|]. intros p n Hp. unfold script_dir_only in Hp.
    apply lookup_singleton_Some in Hp as [<- _]. reflexivity. }
  split; [exact Htree|].
  split; [vm_compute; reflexivity|].
  apply (save_json_returns_exactly_when_unobstructed blank_dump (OUTPUT_FILE ["srv"]) []
           (World [] script_dir_only (fun _ => NoResponse)) Htree).
  vm_compute; reflexivity.
Defined.

Lemma parent_neq (p : path) : p <> [] -> parent p <> p.
Proof.
  destruct p as [|x par]; [done|]. intros _ Heq. cbn in Heq.
  apply (f_equal length) in Heq. cbn in Heq. lia.
Qed.

Lemma is_dir_after_write (p q : path) (text : string) (fs : gmap path node) :
  q <> p -> is_dir q fs = true -> is_dir q (<[p := File text]> fs) = true.
Proof.
  intros Hne. unfold is_dir. destruct q as [|y q]; [done|].
  by rewrite lookup_insert_ne.
Qed.

Lemma tree_shaped_empty : tree_shaped ∅.
Proof. split; [reflexivity|]. intros p n Hp. by rewrite lookup_empty in Hp. Qed.

Lemma no_file_on_empty (p : path) : no_file_on p ∅.
Proof. intros q t _. by rewrite lookup_empty. Qed.

(** X9.  Where it is not obstructed and the encoder does not raise,
    [save_json] makes the missing directories above the path, leaves the
    text of the encoder as the whole content of the file, whatever the
    file held before, and logs its two records; the file system is
    still a tree. *)
Theorem save_json_writes_the_file (json_dump : value -> string * option exn)
    (p : path) (data : pydict) (w : world) :
  tree_shaped (files w) ->
  no_file_on (parent p) (files w) ->
  is_dir p (files w) = false ->
  snd (json_dump (VDict data)) = None ->
  exists w',
    save_json json_dump p data w = (Ok tt, w') /\
    files w' !! p = Some (File (fst (json_dump (VDict data)))) /\
    is_dir (parent p) (files w') = true /\
    tree_shaped (files w') /\
    logged w' = logged w ++ [LogSaving p; LogSaved] /\
    remote w' = remote w.
Proof.
  intros Htree Hno Hd Henc.
  destruct (save_json_ok json_dump p data w Htree Hno Hd)
    as (fs1 & _ & Htree1 & Hpar1 & Hd1 & _ & Hrun).
  rewrite Henc in Hrun. eexists. split; [exact Hrun|]. cbn.
  assert (Hp : p <> []) by (intros ->; discriminate).
  split_and!.
  - apply lookup_insert_eq.
  - apply is_dir_after_write; [by apply parent_neq | done].
  - by apply tree_shaped_write.
  - by rewrite <- app_assoc.
  - done.
Qed.

Lemma save_json_writes_the_file_witness :
  exists w',
    save_json blank_dump (OUTPUT_FILE ["srv"]) [] (quiet_world NoResponse) = (Ok tt, w') /\
    files w' !! OUTPUT_FILE ["srv"] = Some (File "{}") /\
    is_dir (["srv"] // "app") (files w') = true /\
    logged w' = [LogSaving (OUTPUT_FILE ["srv"]); LogSaved].
Proof.
  destruct (save_json_writes_the_file blank_dump (OUTPUT_FILE ["srv"]) []
              (quiet_world NoResponse) tree_shaped_empty (no_file_on_empty _)
              eq_refl eq_refl) as (w' & Hrun & Hfile & Hdir & _ & Hlog & _).
  exists w'. split_and!; [exact Hrun | exact Hfile | exact Hdir | exact Hlog].
Defined.

(** X10.  Whether it returns or raises, [save_json] deletes nothing and
    changes no path but its own: every other path holds what it held,
    or is a directory above the path that was missing and is made. *)
Theorem save_json_keeps_other_files (json_dump : value -> string * option exn)
    (p q : path) (data : pydict) (w : world) :
  q <> p ->
  files (snd (save_json json_dump p data w)) !! q = files w !! q \/
  (files w !! q = None /\
   files (snd (save_json json_dump p data w)) !! q = Some Dir /\
   q `suffix_of` parent p).
Proof.
  intros Hne. rewrite save_json_run.
  destruct (mkdir_parents (parent p) (files w)) as [fs1|e] eqn:Hmk; [|by left].
  destruct (mkdir_parents_post _ _ _ Hmk) as [_ Hadd].
  destruct (open_w p fs1) as [fs2|e] eqn:Hopen; [|exact (Hadd q)].
  destruct (open_w_inv _ _ _ Hopen) as (_ & _ & ->).
  assert (Hq : forall text : string,
            (<[p := File text]> (<[p := File ""]> fs1)) !! q = fs1 !! q).
  { intros text. by rewrite !lookup_insert_ne. }
  destruct (snd (json_dump (VDict data))); cbn; rewrite Hq; exact (Hadd q).
Qed.

Lemma save_json_keeps_other_files_witness :
  ["srv"] // "app" // "notes.txt" <> OUTPUT_FILE ["srv"] /\
  files (snd (save_json blank_dump (OUTPUT_FILE ["srv"]) []
                        (World [] stale_output (fun _ => NoResponse))))
    !! (["srv"] // "app" // "notes.txt") = Some (File "keep") /\
  files (snd (save_json blank_dump (OUTPUT_FILE ["srv"]) []
                        (World [] stale_output (fun _ => NoResponse))))
    !! OUTPUT_FILE ["srv"] = Some (File "{}").
Proof.
  split; [discriminate|]. split; [|vm_compute; reflexivity].
  destruct (save_json_keeps_other_files blank_dump (OUTPUT_FILE ["srv"])
              (["srv"] // "app" // "notes.txt") []
              (World [] stale_output (fun _ => NoResponse))) as [->|(Hnone & _)].
  - discriminate.
  - vm_compute; reflexivity.
  - vm_compute in Hnone. discriminate.
Defined.

(** X11.  When the encoder raises in the middle of the writing, nothing
    is rolled back: [save_json] raises that exception, the file holds
    the part that was written in place of what it held before, and the
    second log record is missing. *)
Theorem save_json_interrupted_leaves_partial_file
    (json_dump : value -> string * option exn) (p : path) (data : pydict)
    (w : world) (e : exn) :
  tree_shaped (files w) ->
  no_file_on (parent p) (files w) ->
  is_dir p (files w) = false ->
  snd (json_dump (VDict data)) = Some e ->
  fst (save_json json_dump p data w) = Raise e /\
  files (snd (save_json json_dump p data w)) !! p =
    Some (File (fst (json_dump (VDict data)))) /\
  logged (snd (save_json json_dump p data w)) = logged w ++ [LogSaving p].
Proof.
  intros Htree Hno Hd Henc.
  destruct (save_json_ok json_dump p data w Htree Hno Hd)
    as (fs1 & _ & _ & _ & _ & _ & ->).
  rewrite Henc. cbn. split_and!; [done | apply lookup_insert_eq | done].
Qed.

Lemma save_json_interrupted_leaves_partial_file_witness :
  fst (save_json failing_dump (OUTPUT_FILE ["srv"]) [] (quiet_world NoResponse)) =
    Raise EncodeError /\
  files (snd (save_json failing_dump (OUTPUT_FILE ["srv"]) [] (quiet_world NoResponse)))
    !! OUTPUT_FILE ["srv"] = Some (File "{").
Proof.
  destruct (save_json_interrupted_leaves_partial_file failing_dump (OUTPUT_FILE ["srv"]) []
              (quiet_world NoResponse) EncodeError tree_shaped_empty (no_file_on_empty _)
              eq_refl eq_refl) as (Hres & Hfile & _).
  split; [exact Hres | exact Hfile].
Defined.

(** X12.  The file system changes in [save_json] and nowhere else: when
    [fetch_data] raises, or [process_data] raises on what was fetched,
    [main] raises the same exception and every file is as it was. *)
Theorem main_failure_before_saving_keeps_files
    (json_dump : value -> string * option exn) (here : path) (w : world) (e : exn) :
  fst (fetch_data w) = Raise e \/
  (exists countries, fst (fetch_data w) = Ok countries /\
                     fst (process_data countries (snd (fetch_data w))) = Raise e) ->
  fst (main json_dump here w) = Raise e /\
  files (snd (main json_dump here w)) = files w.
Proof.
  rewrite main_run. destruct (fetch_data_frame w) as [Hf _].
  destruct (fetch_data w) as [[countries|e1] w1]; cbn in *.
  - intros [[=]|(countries' & [= <-] & Hproc)].
    destruct (process_data_frame countries w1) as [Hp _].
    destruct (process_data countries w1) as [[out|e2] w2]; cbn in *; [discriminate|].
    injection Hproc as ->. split; [done | congruence].
  - intros [[= ->]|(? & [=] & _)]. done.
Qed.

Lemma main_failure_before_saving_keeps_files_witness :
  fst (main blank_dump ["srv"]
         (World [] stale_output (fun _ => Response 200 (Some (VList [syria; VNone]))))) =
    Raise AttributeError /\
  files (snd (main blank_dump ["srv"]
                (World [] stale_output
                       (fun _ => Response 200 (Some (VList [syria; VNone])))))) =
    stale_output.
Proof.
  apply (main_failure_before_saving_keeps_files blank_dump ["srv"]
           (World [] stale_output (fun _ => Response 200 (Some (VList [syria; VNone]))))).
  right. exists (VList [syria; VNone]). split; reflexivity.
Defined.

(** [main] where every stage returns. *)
Lemma main_ok (json_dump : value -> string * option exn)
    (here : path) (w : world) (status : Z) (cs : list value) :
  remote w API_URL = Response status (Some (VList cs)) ->
  is_success status = true ->
  forallb table_record_ok cs = true ->
  forallb output_record_ok cs = true ->
  tree_shaped (files w) ->
  no_file_on (parent (OUTPUT_FILE here)) (files w) ->
  is_dir (OUTPUT_FILE here) (files w) = false ->
  (forall data, snd (json_dump data) = None) ->
  exists out fs1,
    (forall u, fst (process_data (VList cs) u) = Ok out) /\
    mkdir_parents (parent (OUTPUT_FILE here)) (files w) = Ok fs1 /\
    tree_shaped fs1 /\
    is_dir (parent (OUTPUT_FILE here)) fs1 = true /\
    is_dir (OUTPUT_FILE here) fs1 = false /\
    main json_dump here w =
      (Ok tt,
       World (logged w ++ [LogFetching; LogFetched; LogProcessing;
                           LogProcessed (length out);
                           LogSaving (OUTPUT_FILE here); LogSaved])
             (<[OUTPUT_FILE here := File (fst (json_dump (VDict out)))]> fs1)
             (remote w)).
Proof.
  intros Hr Hs Htbl Hout Htree Hno Hd Henc.
  assert (Hbuild : is_ok (build_cca3_map (VList cs)) = true).
  { rewrite build_cca3_map_list,
      (foldM_is_ok _ table_record_ok code_step_is_ok cs []). done. }
  destruct (build_cca3_map (VList cs)) as [tbl|] eqn:Htable; [|discriminate].
  pose proof (process_loop_is_ok tbl [] cs) as Hloop. rewrite Hout in Hloop.
  destruct (foldM (process_record tbl) [] cs) as [out|] eqn:Hfold; [|discriminate].
  set (w1 := World ((logged w ++ [LogFetching]) ++ [LogFetched]) (files w) (remote w)).
  set (w2 := World (logged w1 ++ [LogProcessing] ++ [LogProcessed (length out)])
                   (files w1) (remote w1)).
  assert (Hfetch : fetch_data w = (Ok (VList cs), w1)).
  { by rewrite fetch_data_run, Hr, Hs. }
  assert (Hproc : forall u, process_data (VList cs) u =
            (Ok out, World (logged u ++ [LogProcessing] ++ [LogProcessed (length out)])
                           (files u) (remote u))).
  { intros u. rewrite process_data_run, Htable. cbn. by rewrite Hfold. }
  destruct (save_json_ok json_dump (OUTPUT_FILE here) out w2 Htree Hno Hd)
    as (fs1 & Hmk & Htree1 & Hpar1 & Hd1 & _ & Hsave).
  rewrite (Henc _) in Hsave.
  exists out, fs1. split_and!; try done.
  - intros u. by rewrite (Hproc u).
  - rewrite main_run, Hfetch, (Hproc w1). fold w2. rewrite Hsave.
    subst w2 w1. cbn. by rewrite <- !app_assoc.
Qed.




